(** * opencode-chat-bridge: the message formatter, the Session contract and
    the Telegram adapter, embedded and checked against their specification.

  Layout:
  - [JsString]  : the JavaScript string primitives the sources call
                  ([slice], [trim], [lastIndexOf], [startsWith]);
  - [Formatter] : [src/utils/messageFormatter.ts];
  - [Session]   : the Session state machine of the specification;
  - [Adapter]   : [TelegramAdapter] (authorization middleware, callback and
                  message handlers) as programs over the calls they make to
                  their collaborators;
  - [FormatterMore], [AdapterMore], [AdapterIO] : the rest of the formatter
                  and of the adapter (commands, output listeners, sending). *)

From Stdlib Require Import String Ascii List ZArith Lia Bool Arith DecimalString.
Import ListNotations.

Local Open Scope string_scope.
Local Open Scope Z_scope.

(* ===================================================================== *)
(** ** JavaScript string primitives *)
(* ===================================================================== *)

(** A character of a [string] stands for one UTF-16 code unit (here: the
  code units below 256); [String.length] is JavaScript's [.length]. *)
Module JsString.

Definition len (s : string) : Z := Z.of_nat (String.length s).

Fixpoint take (n : nat) (s : string) : string :=
  match n, s with
  | S n', String c s' => String c (take n' s')
  | _, _ => EmptyString
  end.

Fixpoint drop (n : nat) (s : string) : string :=
  match n, s with
  | S n', String _ s' => drop n' s'
  | _, _ => s
  end.

(** Relative index of [slice]: a negative index counts from the end, and
    the result is clamped to [0 .. len]. *)
Definition rel_index (l i : Z) : Z :=
  if i <? 0 then Z.max (l + i) 0 else Z.min i l.

(** [s.slice(start, end)]. *)
Definition slice (s : string) (start end_ : Z) : string :=
  let from := rel_index (len s) start in
  let to := rel_index (len s) end_ in
  take (Z.to_nat (to - from)) (drop (Z.to_nat from) s).

(** [s.slice(start)]: the end defaults to the length. *)
Definition slice_from (s : string) (start : Z) : string :=
  slice s start (len s).

(** White space and line terminators stripped by [trim], among the code
    units below 256: TAB, LF, VT, FF, CR, SPACE, NBSP. *)
Definition is_white (c : ascii) : bool :=
  let n := nat_of_ascii c in
  ((9 <=? n) && (n <=? 13) || (n =? 32) || (n =? 160))%nat.

Fixpoint trimStart (s : string) : string :=
  match s with
  | String c s' => if is_white c then trimStart s' else s
  | EmptyString => EmptyString
  end.

Fixpoint trimEnd (s : string) : string :=
  match s with
  | String c s' =>
      match trimEnd s' with
      | EmptyString => if is_white c then EmptyString else String c EmptyString
      | t => String c t
      end
  | EmptyString => EmptyString
  end.

(** [s.trim()]. *)
Definition trim (s : string) : string := trimStart (trimEnd s).

(** [s.startsWith(p)]. *)
Definition startsWith (s p : string) : bool := String.prefix p s.

(** Downward scan of [lastIndexOf]: the largest [i <= start] at which
    [pat] occurs in [s], or [-1]. *)
Fixpoint last_occurrence (pat s : string) (start : nat) : Z :=
  if String.prefix pat (drop start s) then Z.of_nat start
  else match start with
       | O => -1
       | S j => last_occurrence pat s j
       end.

(** [s.lastIndexOf(pat, position)]: the scan starts at [position]
    clamped between [0] and [len s - len pat]. *)
Definition lastIndexOf (s pat : string) (position : Z) : Z :=
  let start := Z.min (Z.max position 0) (len s - len pat) in
  if start <? 0 then -1 else last_occurrence pat s (Z.to_nat start).

(** [a.join(sep)] on an array of strings. *)
Fixpoint join (sep : string) (l : list string) : string :=
  match l with
  | [] => EmptyString
  | [x] => x
  | x :: rest => x ++ sep ++ join sep rest
  end.

(** The line feed character, as a one-character string. *)
Definition LF : string := String (ascii_of_nat 10) EmptyString.

End JsString.

(* ===================================================================== *)
(** ** chunkMessage (src/utils/messageFormatter.ts) *)
(* ===================================================================== *)

Module Chunk.
Import JsString.

(** The break point chosen by one iteration of the loop, for a
    [remaining] longer than [maxLength].  [maxLength] is an integer; the
    source's test [last > maxLength * 0.5] on an integer [last] is
    [maxLength < 2 * last]. *)
Definition breakPoint (remaining : string) (maxLength : Z) : Z :=
  let lastNewline := lastIndexOf remaining LF maxLength in
  if maxLength <? 2 * lastNewline then lastNewline + 1
  else
    let lastPeriod := lastIndexOf remaining ". " maxLength in
    if maxLength <? 2 * lastPeriod then lastPeriod + 2
    else
      let lastSpace := lastIndexOf remaining " " maxLength in
      if maxLength <? 2 * lastSpace then lastSpace + 1
      else maxLength.

(** The chunk pushed, and the new [remaining], of one iteration. *)
Definition chunk_of (remaining : string) (maxLength : Z) : string :=
  trim (slice remaining 0 (breakPoint remaining maxLength)).

Definition rest_of (remaining : string) (maxLength : Z) : string :=
  trim (slice_from remaining (breakPoint remaining maxLength)).

(** The [while (remaining.length > 0)] loop.  Each evaluation of the loop
    condition uses one unit of [fuel]; [None] means the fuel ran out
    before the loop left. *)
Fixpoint chunk_loop (fuel : nat) (maxLength : Z) (remaining : string)
         (chunks : list string) : option (list string) :=
  match fuel with
  | O => None
  | S fuel' =>
      if 0 <? len remaining then
        if len remaining <=? maxLength then Some (chunks ++ [remaining])%list
        else chunk_loop fuel' maxLength (rest_of remaining maxLength)
                        (chunks ++ [chunk_of remaining maxLength])%list
      else Some chunks
  end.

Definition chunkMessage (fuel : nat) (text : string) (maxLength : Z)
  : option (list string) :=
  if len text <=? maxLength then Some [text]
  else chunk_loop fuel maxLength text [].

(** [n] copies of the letter a, to build long inputs. *)
Fixpoint letters (n : nat) : string :=
  match n with
  | O => EmptyString
  | S n' => String "a" (letters n')
  end.

End Chunk.


(* ===================================================================== *)
(** ** Message parts and their formatting (src/utils/messageFormatter.ts) *)
(* ===================================================================== *)

Module Formatter.
Import JsString.

(** [state.input] of a tool call, restricted to the three properties the
    formatter reads; a property is absent or holds a string. *)
Record ToolInput := mkToolInput {
  filePath : option string;
  command : option string;
  pattern : option string
}.

(** The [ToolState] union, discriminated by [state.status]. *)
Inductive ToolState :=
| ToolStatePending (input : option ToolInput)
| ToolStateRunning (input : option ToolInput) (title : option string)
| ToolStateCompleted (input : option ToolInput) (title : option string)
| ToolStateError (input : option ToolInput) (error : option string).

Definition state_input (s : ToolState) : option ToolInput :=
  match s with
  | ToolStatePending i | ToolStateRunning i _
  | ToolStateCompleted i _ | ToolStateError i _ => i
  end.

Record TextPart := mkTextPart { text : option string }.
Record ToolPart := mkToolPart { tool : string; state : ToolState }.
Record FilePart := mkFilePart { filename : option string }.
Record ReasoningPart := mkReasoningPart { reasoning_text : option string }.

(** The [Part] union re-exported by [src/opencode/types.ts]: the six kinds
    the formatter names and the five it does not.  Only the properties the
    formatter reads are kept. *)
Inductive Part :=
| PartText (p : TextPart)
| PartTool (p : ToolPart)
| PartFile (p : FilePart)
| PartReasoning (p : ReasoningPart)
| PartStepStart
| PartStepFinish
| PartSnapshot
| PartPatch
| PartAgent
| PartRetry
| PartCompaction.

(** [part.type], the discriminant of the union. *)
Definition part_type (part : Part) : string :=
  match part with
  | PartText _ => "text"
  | PartTool _ => "tool"
  | PartFile _ => "file"
  | PartReasoning _ => "reasoning"
  | PartStepStart => "step-start"
  | PartStepFinish => "step-finish"
  | PartSnapshot => "snapshot"
  | PartPatch => "patch"
  | PartAgent => "agent"
  | PartRetry => "retry"
  | PartCompaction => "compaction"
  end.

(** An optional boolean property of an options object: the key is absent,
    or present with the value [undefined], or present with a boolean. *)
Inductive Field := Absent | Undefined | Value (b : bool).

Record FormatOptions := mkFormatOptions {
  includeTools : Field;
  includeFiles : Field;
  includeReasoning : Field;
  includeSteps : Field;
  useMarkdown : Field;
  compact : Field
}.

(** [options = {}], the default argument. *)
Definition no_options : FormatOptions :=
  mkFormatOptions Absent Absent Absent Absent Absent Absent.

(** [Required<FormatOptions>]. *)
Record RequiredOptions := mkRequiredOptions {
  r_includeTools : bool;
  r_includeFiles : bool;
  r_includeReasoning : bool;
  r_includeSteps : bool;
  r_useMarkdown : bool;
  r_compact : bool
}.

Definition DEFAULT_OPTIONS : RequiredOptions :=
  mkRequiredOptions true true false true true false.

(** One property of [{ ...DEFAULT_OPTIONS, ...options }], read as a
    condition: a present key overrides the default, and [undefined] is
    falsy. *)
Definition spread (default : bool) (f : Field) : bool :=
  match f with
  | Absent => default
  | Undefined => false
  | Value b => b
  end.

Definition merge_options (d : RequiredOptions) (o : FormatOptions)
  : RequiredOptions :=
  mkRequiredOptions
    (spread (r_includeTools d) (includeTools o))
    (spread (r_includeFiles d) (includeFiles o))
    (spread (r_includeReasoning d) (includeReasoning o))
    (spread (r_includeSteps d) (includeSteps o))
    (spread (r_useMarkdown d) (useMarkdown o))
    (spread (r_compact d) (compact o)).

(** [x || fallback] on an optional string: absent and empty are falsy. *)
Definition or_else (x : option string) (fallback : string) : string :=
  match x with
  | Some (String c s) => String c s
  | _ => fallback
  end.

(** [x ? a : b] on an optional string. *)
Definition truthy (x : option string) : bool :=
  match x with
  | Some (String _ _) => true
  | _ => false
  end.

Definition truncate (t : string) (maxLength : Z) : string :=
  if len t <=? maxLength then t
  else slice t 0 (maxLength - 3) ++ "...".

Definition formatTextPart (part : TextPart) : string :=
  or_else (text part) "".

(** The [toolNames] table, looked up among its own keys. *)
Definition toolNames : list (string * string) :=
  [ ("read", "Reading file"); ("write", "Writing file");
    ("edit", "Editing file"); ("bash", "Running command");
    ("glob", "Finding files"); ("grep", "Searching code");
    ("list", "Listing files"); ("webfetch", "Fetching web page");
    ("todoread", "Reading tasks"); ("todowrite", "Writing tasks") ].

Fixpoint lookup (k : string) (table : list (string * string)) : option string :=
  match table with
  | [] => None
  | (k', v) :: rest => if String.eqb k k' then Some v else lookup k rest
  end.

Section Inherited.

(** What an object literal inherits: [proto key] is the property [key] of
    [Object.prototype], as a template literal prints it, when there is one
    and it is truthy. *)
Variable proto : string -> option string.

(** [toolNames[tool] || tool]: the table's own entry for the name, else a
    truthy property the table inherits under that name, else the name. *)
Definition formatToolName (t : string) : string :=
  or_else (match lookup t toolNames with
           | Some readable => Some readable
           | None => proto t
           end) t.

Definition isToolStateCompleted (s : ToolState) : bool :=
  match s with ToolStateCompleted _ _ => true | _ => false end.

Definition state_title (s : ToolState) : option string :=
  match s with
  | ToolStateRunning _ t | ToolStateCompleted _ t => t
  | _ => None
  end.

Definition getToolResultSummary (t : string) (s : ToolState) : option string :=
  match state_input s with
  | None => None
  | Some input =>
      if String.eqb t "read" then
        if truthy (filePath input)
        then Some ("Read: `" ++ or_else (filePath input) "" ++ "`") else None
      else if String.eqb t "write" then
        if truthy (filePath input)
        then Some ("Wrote: `" ++ or_else (filePath input) "" ++ "`") else None
      else if String.eqb t "edit" then
        if truthy (filePath input)
        then Some ("Edited: `" ++ or_else (filePath input) "" ++ "`") else None
      else if String.eqb t "bash" then
        if truthy (command input)
        then Some ("`" ++ truncate (or_else (command input) "") 50 ++ "`")
        else None
      else if String.eqb t "glob" then
        if truthy (pattern input)
        then Some ("Pattern: `" ++ or_else (pattern input) "" ++ "`") else None
      else if String.eqb t "grep" then
        if truthy (pattern input)
        then Some ("Search: `" ++ or_else (pattern input) "" ++ "`") else None
      else
        if isToolStateCompleted s && truthy (state_title s)
        then state_title s else None
  end.

(** The status marker: the empty string for every state. *)
Definition getStatusEmoji (s : ToolState) : string := "".

Definition formatToolPart (part : ToolPart) (opts : RequiredOptions) : string :=
  let statusEmoji := getStatusEmoji (state part) in
  let toolName := formatToolName (tool part) in
  if r_compact opts then
    match state part with
    | ToolStateCompleted _ _ => statusEmoji ++ " " ++ toolName
    | ToolStateError _ e =>
        statusEmoji ++ " " ++ toolName ++ ": " ++ or_else e "Error"
    | ToolStateRunning _ _ => statusEmoji ++ " " ++ toolName ++ "..."
    | ToolStatePending _ => statusEmoji ++ " " ++ toolName
    end
  else
    let lines :=
      match state part with
      | ToolStateRunning _ title =>
          (statusEmoji ++ " *" ++ toolName ++ "*...")
            :: (if truthy title then [or_else title ""] else [])
      | ToolStateCompleted _ _ =>
          (statusEmoji ++ " *" ++ toolName ++ "*")
            :: match getToolResultSummary (tool part) (state part) with
               | Some (String c s) => [String c s]
               | _ => []
               end
      | ToolStateError _ e =>
          (statusEmoji ++ " *" ++ toolName ++ "* failed")
            :: (if truthy e then ["Error: " ++ or_else e ""] else [])
      | ToolStatePending _ =>
          [statusEmoji ++ " *" ++ toolName ++ "* pending..."]
      end in
    join LF lines.

Definition formatFilePart (part : FilePart) (opts : RequiredOptions) : string :=
  let filename := or_else (filename part) "unknown file" in
  if r_compact opts then " `" ++ filename ++ "`"
  else " *File:* `" ++ filename ++ "`".

Definition formatReasoningPart (part : ReasoningPart) (opts : RequiredOptions)
  : string :=
  let t := or_else (reasoning_text part) "" in
  if r_compact opts || (len t =? 0) then " _Thinking..._"
  else " _Thinking:_ " ++ truncate t 200.

Definition formatStepStartPart : string := " Starting step...".

Definition formatStepFinishPart : string := "".

(** [formatPart(part, options)]; [None] is [null]. *)
Definition formatPart (part : Part) (options : FormatOptions) : option string :=
  let opts := merge_options DEFAULT_OPTIONS options in
  match part with
  | PartText p => Some (formatTextPart p)
  | PartTool p =>
      if negb (r_includeTools opts) then None
      else Some (formatToolPart p opts)
  | PartFile p =>
      if negb (r_includeFiles opts) then None
      else Some (formatFilePart p opts)
  | PartReasoning p =>
      if negb (r_includeReasoning opts) then None
      else Some (formatReasoningPart p opts)
  | PartStepStart =>
      if negb (r_includeSteps opts) then None
      else Some formatStepStartPart
  | PartStepFinish =>
      if negb (r_includeSteps opts) then None
      else Some formatStepFinishPart
  | _ => None
  end.

(** The filter of [formatParts]: [text !== null && text.length > 0]. *)
Definition keep (t : option string) : bool :=
  match t with
  | Some s => 0 <? len s
  | None => false
  end.

Fixpoint strings_of (l : list (option string)) : list string :=
  match l with
  | [] => []
  | Some s :: rest => s :: strings_of rest
  | None :: rest => strings_of rest
  end.

Definition formatted (parts : list Part) (options : FormatOptions)
  : list string :=
  strings_of (filter keep (map (fun part => formatPart part options) parts)).

Definition formatParts (parts : list Part) (options : FormatOptions) : string :=
  join LF (formatted parts options).

End Inherited.

(** [formatDelta(part, delta)]; an absent [delta] is [undefined]. *)
Definition formatDelta (part : Part) (delta : option string) : option string :=
  if negb (truthy delta) then None
  else if String.eqb (part_type part) "text" then delta
  else None.

(** The part kinds named by the [case] labels of [formatPart]. *)
Definition handled_types : list string :=
  ["text"; "tool"; "file"; "reasoning"; "step-start"; "step-finish"].

(** Whether a part of type [ty] is rendered under the merged options
    [opts]: text always, the other five kinds when their option is on. *)
Definition rendered (opts : RequiredOptions) (ty : string) : bool :=
  if String.eqb ty "text" then true
  else if String.eqb ty "tool" then r_includeTools opts
  else if String.eqb ty "file" then r_includeFiles opts
  else if String.eqb ty "reasoning" then r_includeReasoning opts
  else if String.eqb ty "step-start" then r_includeSteps opts
  else if String.eqb ty "step-finish" then r_includeSteps opts
  else false.





End Formatter.

(* ===================================================================== *)
(** ** The Session state machine *)
(* ===================================================================== *)

(** Modelled from the spec: the Session class (src/sessions/Session.ts) and
    the Agent Client it drives are not among the sources.  Every definition
    of this module follows sections 3, 4.2, 4.3 and 7 of the specification:
    the fields of the data model, the operations [sendMessage], [interrupt]
    and [replyToLatestPermission], and the event consumption loop. *)
Module Session.

(** Modelled from the spec: the states of section 4.3. *)
Inductive Status :=
| uninitialized | starting | idle | busy | error | terminated.

(** Modelled from the spec: the decisions of [respondToPermission]. *)
Inductive Decision := once | always | reject.

(** Modelled from the spec: a pending permission request (id, prompt
    text, metadata). *)
Record PermissionRequest := mkPermissionRequest {
  permission_id : string;
  permission_prompt : string;
  permission_metadata : string
}.

(** Modelled from the spec: the Session record of section 3;
    [processHandle] is kept as the fact that a live binding is owned, and
    [subEvents] holds the tool, file and reasoning fragments recorded
    alongside the accumulated text (section 4.3). *)
Record Session := mkSession {
  conversationId : string;
  ownerUserId : string;
  projectPath : string;
  agentSessionId : option string;
  status : Status;
  createdAt : Z;
  lastActivityAt : Z;
  processHandle : bool;
  pendingPermission : option PermissionRequest;
  outputBuffer : string;
  subEvents : list string
}.

(** Modelled from the spec: the error taxonomy of section 7 that the
    operations return to their caller. *)
Inductive OperationError :=
| StartupError | Busy | NotRunningError | NoPendingPermission.

(** Modelled from the spec: the requests a Session issues to the Agent
    Client (section 4.2). *)
Inductive AgentCall :=
| AgentSendMessage (agentSession : string) (text : string)
| AgentInterrupt (agentSession : string)
| AgentRespondToPermission (agentSession : string) (permissionId : string)
                           (decision : Decision).

(** Modelled from the spec: the fragment carried by [partUpdated], typed as
    text, tool, file, reasoning or step boundary. *)
Inductive Fragment :=
| TextFragment (t : string)
| ToolFragment (description : string)
| FileFragment (description : string)
| ReasoningFragment (description : string)
| StepStartFragment
| StepFinishFragment.

(** Modelled from the spec: the status carried by [statusChanged]. *)
Inductive AgentStatus :=
| AgentBusy | AgentIdle | AgentError (message : string).

(** Modelled from the spec: the event kinds of [subscribeEvents], and the
    end of the stream. *)
Inductive Event :=
| partUpdated (fragment : Fragment)
| statusChanged (st : AgentStatus)
| permissionRequested (request : PermissionRequest)
| sessionError (message : string)
| streamDisconnected.

(** Modelled from the spec: the outbound notification channel of section 6. *)
Inductive Notification :=
| output (text : string)
| permission (request : PermissionRequest)
| error_notice (message : string)
| terminated_notice.

(** Modelled from the spec: the four ways the operations and the event
    loop change a Session, field by field: its status, its last activity,
    its pending permission, its buffer. *)
Definition with_status (s : Session) (st : Status) : Session :=
  mkSession (conversationId s) (ownerUserId s) (projectPath s)
            (agentSessionId s) st (createdAt s) (lastActivityAt s)
            (processHandle s) (pendingPermission s) (outputBuffer s)
            (subEvents s).

Definition with_activity (s : Session) (now : Z) : Session :=
  mkSession (conversationId s) (ownerUserId s) (projectPath s)
            (agentSessionId s) (status s) (createdAt s) now
            (processHandle s) (pendingPermission s) (outputBuffer s)
            (subEvents s).

Definition with_pending (s : Session) (p : option PermissionRequest) : Session :=
  mkSession (conversationId s) (ownerUserId s) (projectPath s)
            (agentSessionId s) (status s) (createdAt s) (lastActivityAt s)
            (processHandle s) p (outputBuffer s) (subEvents s).

Definition with_buffer (s : Session) (buffer : string) (subs : list string)
  : Session :=
  mkSession (conversationId s) (ownerUserId s) (projectPath s)
            (agentSessionId s) (status s) (createdAt s) (lastActivityAt s)
            (processHandle s) (pendingPermission s) buffer subs.

(** Modelled from the spec: what an operation yields: the condition
    raised to the caller if any (section 7), the Session after it, the
    Agent Client requests issued and the notifications emitted, in order. *)
Record Outcome := mkOutcome {
  returned : option OperationError;
  after : Session;
  forwarded : list AgentCall;
  notified : list Notification
}.

(** Modelled from the spec: [sendMessage(text)] is valid from [idle]; a
    [busy] Session rejects with [Busy] rather than queueing; on acceptance
    the Session becomes [busy], updates [lastActivityAt] and forwards to the
    Agent Client.  Without a live binding the call is [NotRunningError]. *)
Definition sendMessage (s : Session) (message : string) (now : Z) : Outcome :=
  match status s, agentSessionId s with
  | busy, _ => mkOutcome (Some Busy) s [] []
  | idle, Some agent =>
      mkOutcome None (with_activity (with_status s busy) now)
                [AgentSendMessage agent message] []
  | _, _ => mkOutcome (Some NotRunningError) s [] []
  end.

(** Modelled from the spec: flushing; the buffer leaves as one [output]
    notification and is cleared. *)
Definition flush (s : Session) : Session * list Notification :=
  (with_buffer s "" [], [output (outputBuffer s)]).

(** Modelled from the spec: [interrupt()] is valid only from [busy]; it
    forwards to the Agent Client and, when that succeeds, the Session
    becomes [idle] and the partial buffer is flushed; otherwise it fails
    with [NotRunningError].  [accepted] is the Agent Client's answer. *)
Definition interrupt (s : Session) (accepted : bool) (now : Z) : Outcome :=
  match status s, agentSessionId s with
  | busy, Some agent =>
      if accepted then
        let '(s', ns) := flush (with_activity (with_status s idle) now) in
        mkOutcome None s' [AgentInterrupt agent] ns
      else mkOutcome (Some NotRunningError) s [AgentInterrupt agent] []
  | _, _ => mkOutcome (Some NotRunningError) s [] []
  end.

(** Modelled from the spec: [replyToLatestPermission(decision)] requires a
    pending permission; it forwards the decision and clears
    [pendingPermission], and fails with [NoPendingPermission] otherwise. *)
Definition replyToLatestPermission (s : Session) (d : Decision) (now : Z)
  : Outcome :=
  match pendingPermission s, agentSessionId s with
  | Some request, Some agent =>
      mkOutcome None (with_activity (with_pending s None) now)
                [AgentRespondToPermission agent (permission_id request) d] []
  | Some _, None => mkOutcome (Some NotRunningError) s [] []
  | None, _ => mkOutcome (Some NoPendingPermission) s [] []
  end.

(** Modelled from the spec: one step of the event consumption loop of
    section 4.3.  Text fragments concatenate onto [outputBuffer]; tool, file
    and reasoning fragments are recorded beside it; a step-finish flushes;
    [statusChanged] to idle while busy flushes and makes the Session idle;
    [statusChanged] to error and [sessionError] make it [error] and emit the
    message; a permission request is stored and announced; the end of the
    stream emits [terminated] once.  A terminated Session consumes nothing. *)
Definition handle_event (now : Z) (s : Session) (e : Event)
  : Session * list Notification :=
  match status s with
  | terminated => (s, [])
  | _ =>
      let s := with_activity s now in
      match e with
      | partUpdated (TextFragment t) =>
          (with_buffer s (outputBuffer s ++ t) (subEvents s), [])
      | partUpdated (ToolFragment d)
      | partUpdated (FileFragment d)
      | partUpdated (ReasoningFragment d) =>
          (with_buffer s (outputBuffer s) (subEvents s ++ [d])%list, [])
      | partUpdated StepStartFragment => (s, [])
      | partUpdated StepFinishFragment => flush s
      | statusChanged AgentIdle =>
          match status s with
          | busy => flush (with_status s idle)
          | _ => (s, [])
          end
      | statusChanged AgentBusy => (s, [])
      | statusChanged (AgentError m) | sessionError m =>
          (with_status s error, [error_notice m])
      | permissionRequested request =>
          (with_pending s (Some request), [permission request])
      | streamDisconnected =>
          (with_pending (with_status s terminated) None, [terminated_notice])
      end
  end.

(** Modelled from the spec: the loop over a stream; events are consumed
    one at a time, in arrival order (section 5); each comes with the time
    of its arrival. *)
Fixpoint run_events (s : Session) (stream : list (Z * Event))
  : Session * list Notification :=
  match stream with
  | [] => (s, [])
  | (now, e) :: rest =>
      let '(s1, n1) := handle_event now s e in
      let '(s2, n2) := run_events s1 rest in
      (s2, (n1 ++ n2)%list)
  end.

(** Modelled from the spec: a stream of [partUpdated] text fragments, each
    with its time of arrival, and the text they add up to. *)
Definition text_stream (fragments : list (Z * string)) : list (Z * Event) :=
  map (fun f => (fst f, partUpdated (TextFragment (snd f)))) fragments.

Fixpoint concat_texts (fragments : list (Z * string)) : string :=
  match fragments with
  | [] => EmptyString
  | f :: rest => snd f ++ concat_texts rest
  end.

(** Modelled from the spec: the Session of the end-to-end scenario of
    section 8 once its message is accepted: started, busy, and no fragment
    of the answer delivered yet. *)
Definition sample_busy : Session :=
  mkSession "42" "7" "/home/user/projects/demo" (Some "ses_1") busy 100 120
            true None "" [].

(** Modelled from the spec: the same Session later in its turn, when a
    first fragment of the answer is already in [outputBuffer]. *)
Definition sample_mid_turn : Session :=
  mkSession "42" "7" "/home/user/projects/demo" (Some "ses_1") busy 100 130
            true None "X" [].

End Session.

(* ===================================================================== *)
(** ** TelegramAdapter: handlers as programs over their collaborators *)
(* ===================================================================== *)

(** The adapter calls into the session manager, the Session objects, the
    Telegram context, the file system and the logger.  A handler is embedded
    as a tree of such calls: each node is one call, and the subtree chosen
    depends on what the collaborator answers.  Properties are stated for
    every way the collaborators may answer. *)
Module Adapter.
Import JsString.

(** How an awaited promise settles. *)
Inductive Settled := Resolved | Rejected.

(** How an async handler ends: it returns, or it rejects with an error no
    [catch] of its own handled. *)
Inductive Completion := Normal | Uncaught.

Section Programs.

(** A reference to a Session object held by the session manager. *)
Variable SessionRef : Type.

Inductive Call :=
| LoggerInfo (message : string)
| LoggerWarn (message : string)
| LoggerError (message : string)
| CtxReply (text : string)
| CtxAnswerCbQuery
| FsExistsSync (path : string)
| ManagerGet (chatId : string)
| ManagerRestore (chatId : string)
| ManagerGetOrCreate (chatId userId : string) (projectPath : option string)
| ManagerPersist (chatId : string)
| SessionGetStatus (s : SessionRef)
| SessionIsRunning (s : SessionRef)
| SessionStart (s : SessionRef)
| SessionSendMessage (s : SessionRef) (text : string)
| SessionSwitchProject (s : SessionRef) (projectPath : string)
| SessionReplyToLatestPermission (s : SessionRef) (decision : string)
| SessionSendConfirmation (s : SessionRef) (confirmed : bool)
| SessionOn (s : SessionRef) (event : string) (chatId : string).

(** What each call answers.  Awaited calls settle; the manager's lookups
    answer a Session or nothing. *)
Definition Resp (c : Call) : Type :=
  match c with
  | LoggerInfo _ | LoggerWarn _ | LoggerError _ => unit
  | CtxReply _ | CtxAnswerCbQuery => Settled
  | FsExistsSync _ => bool
  | ManagerGet _ | ManagerRestore _ => option SessionRef
  | ManagerGetOrCreate _ _ _ => SessionRef
  | ManagerPersist _ => unit
  | SessionGetStatus _ => string
  | SessionIsRunning _ => bool
  | SessionStart _ | SessionSendMessage _ _ | SessionSwitchProject _ _
  | SessionReplyToLatestPermission _ _ | SessionSendConfirmation _ _ => Settled
  | SessionOn _ _ _ => unit
  end.

Inductive Prog (A : Type) : Type :=
| Ret (a : A)
| Step (c : Call) (k : Resp c -> Prog A).

Arguments Ret {A} a.
Arguments Step {A} c k.

Fixpoint bind {A B : Type} (p : Prog A) (f : A -> Prog B) : Prog B :=
  match p with
  | Ret a => f a
  | Step c k => Step c (fun r => bind (k r) f)
  end.

Definition call (c : Call) : Prog (Resp c) := Step c Ret.

Notation "x <- p ;; q" := (bind p (fun x => q))
  (at level 61, p at next level, right associativity).
Notation "p ;; q" := (bind p (fun _ => q))
  (at level 61, right associativity).

(** Sequencing inside a [try] block: the rest runs only if the awaited call
    resolved; a rejection jumps to the [catch]. *)
Definition and_then (p q : Prog Settled) : Prog Settled :=
  o <- p ;;
  match o with
  | Resolved => q
  | Rejected => Ret Rejected
  end.

Notation "p &&> q" := (and_then p q) (at level 60, right associativity).

(** [x || ''] on an optional string. *)
Definition or_empty (x : option string) : string :=
  match x with
  | Some t => t
  | None => EmptyString
  end.

(** An awaited call outside any [try]: its rejection ends the handler. *)
Definition finish (o : Settled) : Completion :=
  match o with
  | Resolved => Normal
  | Rejected => Uncaught
  end.

(** An observed call with its answer, and the trace of a run. *)
Definition Obs : Type := { c : Call & Resp c }.

Definition observed (c : Call) (r : Resp c) : Obs := existT Resp c r.

Definition command (o : Obs) : Call := projT1 o.

(** Running a program against collaborators that answer from a state of
    their own. *)
Fixpoint run {St A : Type} (respond : forall c : Call, St -> Resp c * St)
         (p : Prog A) (st : St) : list Obs * A :=
  match p with
  | Ret a => ([], a)
  | Step c k =>
      let '(r, st') := respond c st in
      let '(tr, a) := run respond (k r) st' in
      (observed c r :: tr, a)
  end.

(** A property of every run: whatever is answered at each call. *)
Fixpoint every_run {A : Type} (P : list Obs -> A -> Prop) (p : Prog A) : Prop :=
  match p with
  | Ret a => P [] a
  | Step c k => forall r : Resp c, every_run (fun tr a => P (observed c r :: tr) a) (k r)
  end.

(** The part of a Telegram update the handlers read. *)
Record Context := mkContext {
  from_id : option Z;                  (* ctx.from?.id *)
  chat_id : option Z;                  (* ctx.chat?.id *)
  message_text : option string;        (* ctx.message.text *)
  callbackQuery : option (option string) (* ctx.callbackQuery and its data *)
}.

Record Config := mkConfig {
  telegramAllowedUsers : list Z;
  projectsDir : string
}.

(** [path.join]. *)
Variable path_join : string -> string -> string.

Variable config : Config.

(** [String(id)] on an optional number. *)
Definition String_of (id : option Z) : string :=
  match id with
  | Some z => DecimalString.NilZero.string_of_int (Z.to_int z)
  | None => "undefined"
  end.

(** [list.includes(id)]. *)
Definition includes (l : list Z) (id : Z) : bool :=
  existsb (Z.eqb id) l.

Definition unauthorized_notice : string :=
  "⛔ You are not authorized to use this bot.".

(** The authorization middleware installed by [setupHandlers]; [next] is
    the rest of the chain: the command, callback and message handlers. *)
Definition authMiddleware (ctx : Context) (next : Prog Completion)
  : Prog Completion :=
  match from_id ctx with
  | None | Some 0 =>
      call (LoggerWarn "Message received without user ID") ;;
      Ret Normal
  | Some userId =>
      if (0 <? Z.of_nat (List.length (telegramAllowedUsers config)))
         && negb (includes (telegramAllowedUsers config) userId)
      then
        call (LoggerWarn ("Unauthorized access attempt from user "
                            ++ String_of (Some userId))) ;;
        o <- call (CtxReply unauthorized_notice) ;;
        Ret (finish o)
      else next
  end.

Definition start_failed_notice : string :=
  "❌ Failed to start OpenCode. Is it installed?".

(** [setupSessionOutput]: the four listeners registered on the Session. *)
Definition setupSessionOutput (chatId : string) (s : SessionRef) : Prog unit :=
  call (SessionOn s "output" chatId) ;;
  call (SessionOn s "permission" chatId) ;;
  call (SessionOn s "error" chatId) ;;
  call (SessionOn s "terminated" chatId).

Definition switchToProject (chatId userId projectName : string)
  : Prog Completion :=
  let projectPath := path_join (projectsDir config) projectName in
  found <- call (FsExistsSync projectPath) ;;
  if negb found then
    o <- call (CtxReply ("❌ Project not found: " ++ projectName)) ;;
    Ret (finish o)
  else
    session <- call (ManagerGet chatId) ;;
    o <- (match session with
          | Some s =>
              call (CtxReply ("🔄 Switching to project: *" ++ projectName ++ "*..."))
              &&> call (SessionSwitchProject s projectPath)
          | None =>
              s <- call (ManagerGetOrCreate chatId userId (Some projectPath)) ;;
              setupSessionOutput chatId s ;;
              call (SessionStart s)
              &&> call (CtxReply ("📂 Started session in: *" ++ projectName ++ "*"))
          end
          &&> (call (ManagerPersist chatId) ;; Ret Resolved)) ;;
    match o with
    | Resolved => Ret Normal
    | Rejected =>
        call (LoggerError "Error switching project:") ;;
        o' <- call (CtxReply ("❌ Failed to switch to project: " ++ projectName)) ;;
        Ret (finish o')
    end.

(** One permission button of [handleCallback]. *)
Definition permissionButton (chatId decision confirmation : string)
  : Prog Completion :=
  session <- call (ManagerGet chatId) ;;
  match session with
  | Some s =>
      o <- (call (SessionReplyToLatestPermission s decision)
            &&> call (CtxReply confirmation)) ;;
      match o with
      | Resolved => Ret Normal
      | Rejected =>
          call (LoggerError "Error replying to permission:") ;;
          o' <- call (CtxReply "❌ Failed to respond to permission") ;;
          Ret (finish o')
      end
  | None => Ret Normal
  end.

(** One legacy confirmation button of [handleCallback]. *)
Definition confirmButton (chatId : string) (confirmed : bool)
  : Prog Completion :=
  session <- call (ManagerGet chatId) ;;
  match session with
  | Some s =>
      o <- call (SessionSendConfirmation s confirmed) ;;
      match o with
      | Resolved => Ret Normal
      | Rejected => call (LoggerError "Error sending confirmation:") ;; Ret Normal
      end
  | None => Ret Normal
  end.

Definition handleCallback (ctx : Context) : Prog Completion :=
  match callbackQuery ctx with
  | None | Some None => Ret Normal
  | Some (Some data) =>
      let chatId := String_of (chat_id ctx) in
      let userId := String_of (from_id ctx) in
      answered <- call CtxAnswerCbQuery ;;
      match answered with
      | Rejected => Ret Uncaught
      | Resolved =>
          if startsWith data "switch:" then
            switchToProject chatId userId (drop 7 data)
          else if String.eqb data "permission:once" then
            permissionButton chatId "once" "✅ Allowed once"
          else if String.eqb data "permission:always" then
            permissionButton chatId "always" "✅ Always allowed"
          else if String.eqb data "permission:reject" then
            permissionButton chatId "reject" "❌ Rejected"
          else if String.eqb data "confirm:yes" then
            confirmButton chatId true
          else if String.eqb data "confirm:no" then
            confirmButton chatId false
          else Ret Normal
      end
  end.

(** The double quote character, as a one-character string. *)
Definition dquote : string := String (ascii_of_nat 34) EmptyString.

Definition string_of_bool (b : bool) : string :=
  if b then "true" else "false".

(** What the two [try] blocks of [handleMessage] decide. *)
Inductive Flow := Continue | Return (c : Completion).

Definition handleMessage (ctx : Context) : Prog Completion :=
  let chatId := String_of (chat_id ctx) in
  let userId := String_of (from_id ctx) in
  let text := or_empty (message_text ctx) in
  call (LoggerInfo ("Received message from " ++ chatId ++ ": " ++ dquote
                      ++ slice text 0 50 ++ "..." ++ dquote)) ;;
  live <- call (ManagerGet chatId) ;;
  session <- match live with
             | Some s => Ret (Some s)
             | None =>
                 restored <- call (ManagerRestore chatId) ;;
                 match restored with
                 | Some s => setupSessionOutput chatId s ;; Ret (Some s)
                 | None => Ret None
                 end
             end ;;
  session <- match session with
             | Some s => Ret s
             | None =>
                 s <- call (ManagerGetOrCreate chatId userId None) ;;
                 setupSessionOutput chatId s ;;
                 Ret s
             end ;;
  status <- call (SessionGetStatus session) ;;
  running <- call (SessionIsRunning session) ;;
  call (LoggerInfo ("Session status: " ++ status ++ ", isRunning: "
                      ++ string_of_bool running)) ;;
  running <- call (SessionIsRunning session) ;;
  flow <- (if negb running then
             o <- (call (CtxReply "🚀 Starting OpenCode session...")
                   &&> call (SessionStart session)
                   &&> call (CtxReply "✅ OpenCode session ready!")) ;;
             match o with
             | Resolved => Ret Continue
             | Rejected =>
                 call (LoggerError "Failed to start session:") ;;
                 o' <- call (CtxReply start_failed_notice) ;;
                 Ret (Return (finish o'))
             end
           else Ret Continue) ;;
  match flow with
  | Return c => Ret c
  | Continue =>
      call (LoggerInfo "Sending message to OpenCode session...") ;;
      o <- call (SessionSendMessage session text) ;;
      match o with
      | Resolved => call (LoggerInfo "Message sent successfully") ;; Ret Normal
      | Rejected =>
          call (LoggerError "Failed to send message:") ;;
          o' <- call (CtxReply "❌ Failed to send message to OpenCode") ;;
          Ret (finish o')
      end
  end.

End Programs.

Arguments LoggerInfo {SessionRef} message.
Arguments LoggerWarn {SessionRef} message.
Arguments LoggerError {SessionRef} message.
Arguments CtxReply {SessionRef} text.
Arguments CtxAnswerCbQuery {SessionRef}.
Arguments FsExistsSync {SessionRef} path.
Arguments ManagerGet {SessionRef} chatId.
Arguments ManagerRestore {SessionRef} chatId.
Arguments ManagerGetOrCreate {SessionRef} chatId userId projectPath.
Arguments ManagerPersist {SessionRef} chatId.
Arguments SessionGetStatus {SessionRef} s.
Arguments SessionIsRunning {SessionRef} s.
Arguments SessionStart {SessionRef} s.
Arguments SessionSendMessage {SessionRef} s text.
Arguments SessionSwitchProject {SessionRef} s projectPath.
Arguments SessionReplyToLatestPermission {SessionRef} s decision.
Arguments SessionSendConfirmation {SessionRef} s confirmed.
Arguments SessionOn {SessionRef} s event chatId.
Arguments Ret {SessionRef A} a.
Arguments Step {SessionRef A} c k.
Arguments observed {SessionRef} c r.
Arguments command {SessionRef} o.
Arguments run {SessionRef St A} respond p st.
Arguments every_run {SessionRef A} P p.
Arguments bind {SessionRef A B} p f.
Arguments call {SessionRef} c.

(** Collaborators for concrete runs: Sessions are numbered, nothing is
    live or persisted, a created Session is number 1 and is not running,
    and every awaited call resolves. *)
Definition sample_respond (c : Call nat) (st : unit) : Resp nat c * unit :=
  (match c as c0 return Resp nat c0 with
   | LoggerInfo _ | LoggerWarn _ | LoggerError _ => tt
   | CtxReply _ | CtxAnswerCbQuery => Resolved
   | FsExistsSync _ => true
   | ManagerGet _ | ManagerRestore _ => None
   | ManagerGetOrCreate _ _ _ => 1%nat
   | ManagerPersist _ => tt
   | SessionGetStatus _ => "uninitialized"
   | SessionIsRunning _ => false
   | SessionStart _ | SessionSendMessage _ _ | SessionSwitchProject _ _
   | SessionReplyToLatestPermission _ _ | SessionSendConfirmation _ _ => Resolved
   | SessionOn _ _ _ => tt
   end, st).

(** The same, with Session number 1 live and running. *)
Definition sample_respond_live (c : Call nat) (st : unit) : Resp nat c * unit :=
  (match c return Resp nat c with
   | ManagerGet _ => Some 1%nat
   | SessionIsRunning _ => true
   | c' => fst (sample_respond c' st)
   end, st).

Definition sample_config : Config := mkConfig [1001; 1002] "/home/user/projects".

Definition sample_join (a b : string) : string := a ++ "/" ++ b.

(** A text message and a button press from user 7 in chat 42. *)
Definition sample_message : Context :=
  mkContext (Some 7) (Some 42) (Some "hello") None.

Definition sample_button : Context :=
  mkContext (Some 7) (Some 42) None (Some (Some "permission:always")).

End Adapter.

(* ===================================================================== *)
(** ** The rest of the formatter (src/utils/messageFormatter.ts) *)
(* ===================================================================== *)

Module FormatterMore.
Import JsString Chunk Formatter.

Definition TELEGRAM_MAX_LENGTH : Z := 4096.

Definition CODE_BLOCK_MAX_LENGTH : Z := TELEGRAM_MAX_LENGTH - 50.

(** [formatPartsForTelegram(parts, options)]; the loop of [chunkMessage]
    takes its [fuel]. *)
Definition formatPartsForTelegram (proto : string -> option string)
           (fuel : nat) (parts : list Part) (options : FormatOptions)
  : option (list string) :=
  let text := formatParts proto parts options in
  if len text =? 0 then Some []
  else if len text <=? TELEGRAM_MAX_LENGTH then Some [text]
  else chunkMessage fuel text TELEGRAM_MAX_LENGTH.

(** The permission object [formatPermissionRequest] reads: only its
    [title] is used. *)
Record PermissionInfo := mkPermissionInfo {
  info_id : string;
  info_title : option string
}.

Definition formatPermissionRequest (permission : PermissionInfo) : string :=
  let lines :=
    ([" *Permission Required*"; ""]
       ++ (if truthy (info_title permission)
           then [or_else (info_title permission) ""] else [])
       ++ [""; "Please respond: Allow Once, Always Allow, or Reject"])%list in
  join LF lines.

(** [formatSessionStatus(status, errorMessage)]. *)
Definition formatSessionStatus (status : string) (errorMessage : option string)
  : string :=
  if String.eqb status "idle" then " Ready"
  else if String.eqb status "busy" then " Working..."
  else if String.eqb status "error" then
    if truthy errorMessage then " Error: " ++ or_else errorMessage ""
    else " Error"
  else " " ++ status.

(** The characters of the class [[*_`\[\]]]. *)
Definition is_markdown (c : ascii) : bool :=
  let n := nat_of_ascii c in
  ((n =? 42) || (n =? 95) || (n =? 96) || (n =? 91) || (n =? 93))%nat.

(** The backslash. *)
Definition backslash : ascii := ascii_of_nat 92.

(** [text.replace(/([*_`\[\]])/g, '\\$1')]: every character of the class
    gets a backslash in front. *)
Fixpoint escapeMarkdown (t : string) : string :=
  match t with
  | EmptyString => EmptyString
  | String c rest =>
      if is_markdown c then String backslash (String c (escapeMarkdown rest))
      else String c (escapeMarkdown rest)
  end.

(** The three backticks of a code fence. *)
Definition fence : string := "```".

(** [formatCode(code, language)]. *)
Definition formatCode (code : string) (language : option string) : string :=
  let lang := or_else language "" in
  let wrapped := fence ++ lang ++ LF ++ code ++ LF ++ fence in
  if len wrapped <=? TELEGRAM_MAX_LENGTH then wrapped
  else
    let maxCodeLength := CODE_BLOCK_MAX_LENGTH - len lang - 10 in
    let truncated := truncate code maxCodeLength in
    fence ++ lang ++ LF ++ truncated ++ LF ++ fence.

(** [s.includes(pat)]. *)
Fixpoint includes_text (s pat : string) : bool :=
  if String.prefix pat s then true
  else match s with
       | EmptyString => false
       | String _ rest => includes_text rest pat
       end.

(** *** Notions used to state what the formatter keeps *)

(** The characters of a string that are not white space, in order. *)
Fixpoint nonwhite (s : string) : string :=
  match s with
  | EmptyString => EmptyString
  | String c rest =>
      if is_white c then nonwhite rest else String c (nonwhite rest)
  end.

(** The strings of a list, one after the other. *)
Fixpoint flatten (l : list string) : string :=
  match l with
  | [] => EmptyString
  | x :: rest => x ++ flatten rest
  end.

(** Whether a string begins with a character that is not white space. *)
Definition starts_nonwhite (s : string) : bool :=
  match s with
  | String c _ => negb (is_white c)
  | EmptyString => false
  end.

(** Whether a part gives a line of [formatParts] under the merged options:
    a text part with a non-empty text, and a tool, file, reasoning or
    step-start part whose kind is included. *)
Definition shows (opts : RequiredOptions) (part : Part) : bool :=
  match part with
  | PartText p => truthy (text p)
  | PartTool _ => r_includeTools opts
  | PartFile _ => r_includeFiles opts
  | PartReasoning _ => r_includeReasoning opts
  | PartStepStart => r_includeSteps opts
  | _ => false
  end.

(** Undoing [escapeMarkdown]: a backslash in front of a character of the
    class is dropped. *)
Fixpoint unescapeMarkdown (t : string) : string :=
  match t with
  | EmptyString => EmptyString
  | String c rest =>
      match rest with
      | String d rest' =>
          if Ascii.eqb c backslash && is_markdown d
          then String d (unescapeMarkdown rest')
          else String c (unescapeMarkdown rest)
      | EmptyString => String c EmptyString
      end
  end.

End FormatterMore.

(* ===================================================================== *)
(** ** The rest of TelegramAdapter over the same collaborators *)
(* ===================================================================== *)

Module AdapterMore.
Import JsString Adapter.

(** An inline button: its label and its callback data. *)
Definition Button : Type := (string * string)%type.

(** The rows of buttons [handleProjects] offers for the projects found:
    one row per project, for the first ten. *)
Definition projectButtons (projects : list string) : list (list Button) :=
  map (fun project => [("📂 " ++ project, "switch:" ++ project)])
      (firstn 10 projects).

(** The keyboard [setupSessionOutput] attaches to a permission prompt. *)
Definition permissionKeyboard : list (list Button) :=
  [ [ ("✅ Allow Once", "permission:once"); ("✅ Always", "permission:always") ];
    [ ("❌ Reject", "permission:reject") ] ].

(** The text of [/start] and [/help]. *)
Definition welcome : string :=
  "🤖 *OpenCode Chat Bridge*" ++ LF ++ LF
  ++ "I'm your bridge to OpenCode! Send me messages and I'll forward them to your OpenCode session."
  ++ LF ++ LF
  ++ "*Commands:*" ++ LF
  ++ "/projects - List available projects" ++ LF
  ++ "/switch <project> - Switch to a project" ++ LF
  ++ "/status - Show session status" ++ LF
  ++ "/clear - Clear/reset session" ++ LF
  ++ "/stop - Stop current operation" ++ LF
  ++ "/help - Show this help" ++ LF ++ LF
  ++ "Send any text to interact with OpenCode!".

Section MorePrograms.

Variable SessionRef : Type.

(** [handleStart]: the welcome, then the Session of the chat, restored or
    else created, gets the output listeners. *)
Definition handleStart (ctx : Context) : Prog SessionRef Completion :=
  let chatId := String_of (chat_id ctx) in
  let userId := String_of (from_id ctx) in
  bind (call (CtxReply welcome)) (fun o =>
  match o with
  | Rejected => Ret Uncaught
  | Resolved =>
      bind (call (ManagerRestore chatId)) (fun restored =>
      bind (match restored with
            | Some s => Ret s
            | None => call (ManagerGetOrCreate chatId userId None)
            end) (fun session =>
      bind (setupSessionOutput SessionRef chatId session) (fun _ =>
      Ret Normal)))
  end).

(** [handleHelp] is [handleStart]. *)
Definition handleHelp (ctx : Context) : Prog SessionRef Completion :=
  handleStart ctx.

(** Kinds of calls, to count them in a trace. *)
Definition is_send (c : Call SessionRef) : bool :=
  match c with SessionSendMessage _ _ => true | _ => false end.

Definition is_start (c : Call SessionRef) : bool :=
  match c with SessionStart _ => true | _ => false end.

Definition is_persist (c : Call SessionRef) : bool :=
  match c with ManagerPersist _ => true | _ => false end.

(** Calls that bring a Session into the registry or hang listeners on it. *)
Definition sets_up (c : Call SessionRef) : bool :=
  match c with
  | ManagerRestore _ | ManagerGetOrCreate _ _ _ | SessionOn _ _ _ => true
  | _ => false
  end.

Definition count (kind : Call SessionRef -> bool) (tr : list (Obs SessionRef))
  : nat :=
  List.length (filter (fun o => kind (command o)) tr).

End MorePrograms.

Arguments is_send {SessionRef} c.
Arguments is_start {SessionRef} c.
Arguments is_persist {SessionRef} c.
Arguments sets_up {SessionRef} c.
Arguments count {SessionRef} kind tr.

(** [text.split(/\s+/)]: the pieces of [text] between its runs of white
    space.  [word] is the piece being read, [in_gap] tells that the last
    character read was white; a text that begins or ends with white space
    gives an empty first or last piece. *)
Fixpoint split_white (in_gap : bool) (word text : string) : list string :=
  match text with
  | EmptyString => [word]
  | String c rest =>
      if is_white c then
        if in_gap then split_white true word rest
        else word :: split_white true EmptyString rest
      else split_white false (word ++ String c EmptyString) rest
  end.

Definition splitWhite (text : string) : list string :=
  split_white false EmptyString text.

Section SwitchCommand.

Variable SessionRef : Type.
Variable path_join : string -> string -> string.
Variable config : Config.

Definition switch_usage : string := "Usage: `/switch <project-name>`".

(** [handleSwitch]: the words after the first, joined by single blanks,
    name the project. *)
Definition handleSwitch (ctx : Context) : Prog SessionRef Completion :=
  let chatId := String_of (chat_id ctx) in
  let userId := String_of (from_id ctx) in
  let text := or_empty (message_text ctx) in
  let args := tl (splitWhite text) in
  if (List.length args =? 0)%nat then
    bind (call (CtxReply switch_usage)) (fun o => Ret (finish o))
  else
    switchToProject SessionRef path_join config chatId userId (join " " args).

End SwitchCommand.

(** Whether a string holds a white-space character. *)
Fixpoint has_white (s : string) : bool :=
  match s with
  | EmptyString => false
  | String c rest => is_white c || has_white rest
  end.

(** A word: not empty and without white space. *)
Definition is_word (s : string) : bool :=
  negb (String.eqb s EmptyString) && negb (has_white s).

(** Whether the only white space of a string are blanks, none next to
    another white-space character. *)
Fixpoint single_spaced (s : string) : bool :=
  match s with
  | EmptyString => true
  | String c rest =>
      if is_white c then
        Ascii.eqb c " "
        && match rest with
           | String d _ => negb (is_white d)
           | EmptyString => true
           end
        && single_spaced rest
      else single_spaced rest
  end.

(** A string in which white space is single blanks, and which does not
    begin with one. *)
Definition tidy (s : string) : Prop :=
  single_spaced s = true
  /\ match s with
     | String d _ => is_white d = false
     | EmptyString => True
     end.

(** [/switch my app] from user 7 in chat 42. *)
Definition sample_switch : Context :=
  mkContext (Some 7) (Some 42) (Some "/switch my app") None.

(** An update that carries no sender. *)
Definition sample_anonymous : Context :=
  mkContext None (Some 42) (Some "hello") None.

(** A message from user 1001, who is on the list of [sample_config]. *)
Definition sample_listed : Context :=
  mkContext (Some 1001) (Some 42) (Some "hello") None.

End AdapterMore.

(* ===================================================================== *)
(** ** TelegramAdapter: listeners, outbound messages, /projects, /stop *)
(* ===================================================================== *)

(** These handlers also call [bot.telegram.sendMessage], replies with an
    inline keyboard, [fs.readdirSync], [session.interrupt] and the
    manager's [clear]; their programs range over the calls of [Adapter]
    and these. *)
Module AdapterIO.
Import JsString Chunk Adapter AdapterMore.

(** A directory entry, as [readdirSync] with file types gives it. *)
Record Dirent := mkDirent { name : string; isDirectory : bool }.

Section IOPrograms.

Variable SessionRef : Type.

Inductive IOCall :=
| Base (c : Call SessionRef)
| ManagerClear (chatId : string)
| SessionInterrupt (s : SessionRef)
| FsReaddirSync (path : string)
| CtxReplyKeyboard (text : string) (rows : list (list Button))
| TelegramSendMessage (chatId text : string) (markdown : bool)
                      (rows : list (list Button)).

(** What each call answers: the awaited ones settle, [clear] resolves to
    a boolean or rejects, [readdirSync] returns the entries or throws. *)
Definition IOResp (c : IOCall) : Type :=
  match c with
  | Base c' => Resp SessionRef c'
  | ManagerClear _ => option bool
  | SessionInterrupt _ => Settled
  | FsReaddirSync _ => option (list Dirent)
  | CtxReplyKeyboard _ _ => Settled
  | TelegramSendMessage _ _ _ _ => Settled
  end.

Inductive IO (A : Type) : Type :=
| Done (a : A)
| Then (c : IOCall) (k : IOResp c -> IO A).

Arguments Done {A} a.
Arguments Then {A} c k.

Fixpoint io_bind {A B : Type} (p : IO A) (f : A -> IO B) : IO B :=
  match p with
  | Done a => f a
  | Then c k => Then c (fun r => io_bind (k r) f)
  end.

Definition io (c : IOCall) : IO (IOResp c) := Then c Done.

Notation "x <- p ;; q" := (io_bind p (fun x => q))
  (at level 61, p at next level, right associativity).
Notation "p ;; q" := (io_bind p (fun _ => q))
  (at level 61, right associativity).

(** Sequencing inside a [try] block. *)
Definition io_and_then (p q : IO Settled) : IO Settled :=
  o <- p ;;
  match o with
  | Resolved => q
  | Rejected => Done Rejected
  end.

Notation "p &&> q" := (io_and_then p q) (at level 60, right associativity).

Definition IOObs : Type := { c : IOCall & IOResp c }.

Definition io_observed (c : IOCall) (r : IOResp c) : IOObs := existT IOResp c r.

Definition io_command (o : IOObs) : IOCall := projT1 o.

Fixpoint io_run {St A : Type} (respond : forall c : IOCall, St -> IOResp c * St)
         (p : IO A) (st : St) : list IOObs * A :=
  match p with
  | Done a => ([], a)
  | Then c k =>
      let '(r, st') := respond c st in
      let '(tr, a) := io_run respond (k r) st' in
      (io_observed c r :: tr, a)
  end.

Fixpoint io_every {A : Type} (P : list IOObs -> A -> Prop) (p : IO A) : Prop :=
  match p with
  | Done a => P [] a
  | Then c k =>
      forall r : IOResp c, io_every (fun tr a => P (io_observed c r :: tr) a) (k r)
  end.

Variable config : Config.

(** The projects [handleProjects] lists: the directories whose name does
    not begin with a dot. *)
Definition visible_projects (entries : list Dirent) : list string :=
  map name
      (filter (fun entry => isDirectory entry && negb (startsWith (name entry) "."))
              entries).

Definition backtick : string := "`".

(** [handleProjects]. *)
Definition handleProjects : IO Completion :=
  let dir := projectsDir config in
  o <- (found <- io (Base (FsExistsSync dir)) ;;
        if negb found then
          io (Base (CtxReply ("📁 Projects directory not found: " ++ dir)))
        else
          entries <- io (FsReaddirSync dir) ;;
          match entries with
          | None => Done Rejected
          | Some entries =>
              let projects := visible_projects entries in
              if (List.length projects =? 0)%nat then
                io (Base (CtxReply ("📁 No projects found in " ++ dir)))
              else
                io (CtxReplyKeyboard
                      ("📁 *Available Projects*" ++ LF ++ LF
                         ++ "Tap to switch, or use " ++ backtick
                         ++ "/switch <name>" ++ backtick)
                      (projectButtons projects))
          end) ;;
  match o with
  | Resolved => Done Normal
  | Rejected =>
      io (Base (LoggerError "Error listing projects:")) ;;
      o' <- io (Base (CtxReply "❌ Error listing projects")) ;;
      Done (finish o')
  end.

(** [handleClear]. *)
Definition handleClear (ctx : Context) : IO Completion :=
  let chatId := String_of (chat_id ctx) in
  cleared <- io (ManagerClear chatId) ;;
  match cleared with
  | None => Done Uncaught
  | Some true =>
      o <- io (Base (CtxReply "🧹 Session cleared. Send a message to start a new one.")) ;;
      Done (finish o)
  | Some false =>
      o <- io (Base (CtxReply "📊 No active session to clear.")) ;;
      Done (finish o)
  end.

Definition nothing_to_stop : string := "📊 No running operation to stop.".

(** [handleStop]. *)
Definition handleStop (ctx : Context) : IO Completion :=
  let chatId := String_of (chat_id ctx) in
  session <- io (Base (ManagerGet chatId)) ;;
  running <- match session with
             | Some s =>
                 r <- io (Base (SessionIsRunning s)) ;;
                 Done (if r then Some s else None)
             | None => Done None
             end ;;
  match running with
  | Some s =>
      o <- (io (SessionInterrupt s)
            &&> io (Base (CtxReply "⏹ Operation interrupted"))) ;;
      match o with
      | Resolved => Done Normal
      | Rejected =>
          io (Base (LoggerError "Error interrupting session:")) ;;
          o' <- io (Base (CtxReply "❌ Failed to interrupt operation")) ;;
          Done (finish o')
      end
  | None =>
      o <- io (Base (CtxReply nothing_to_stop)) ;;
      Done (finish o)
  end.

(** The mark the output listener looks for. *)
Definition permission_mark : string := "*Permission Required*".

(** [for (const chunk of chunks) await sendMessage(chatId, chunk, options)]:
    the first rejection ends the loop. *)
Fixpoint send_each (chatId : string) (markdown : bool) (chunks : list string)
  : IO Settled :=
  match chunks with
  | [] => Done Resolved
  | chunk :: rest =>
      io (TelegramSendMessage chatId chunk markdown [])
      &&> send_each chatId markdown rest
  end.

(** The [catch] of the output listener: the whole text once more, without
    Markdown. *)
Definition send_plain_again (chatId data : string) : IO unit :=
  io (Base (LoggerError "Failed to send output to Telegram:")) ;;
  o <- io (TelegramSendMessage chatId data false []) ;;
  match o with
  | Resolved => Done tt
  | Rejected => io (Base (LoggerError "Failed to send plain text output:"))
  end.

(** The listener [setupSessionOutput] registers with [onOutput]; the loop
    of [chunkMessage] takes its [fuel], and [None] means it ran out. *)
Definition outputListener (fuel : nat) (chatId data : string)
  : option (IO unit) :=
  if FormatterMore.includes_text data permission_mark then
    Some (o <- io (TelegramSendMessage chatId data true permissionKeyboard) ;;
          match o with
          | Resolved => Done tt
          | Rejected => send_plain_again chatId data
          end)
  else
    match chunkMessage fuel data 4096 with
    | None => None
    | Some chunks =>
        Some (o <- send_each chatId true chunks ;;
              match o with
              | Resolved => Done tt
              | Rejected => send_plain_again chatId data
              end)
    end.

(** The listener registered for the [permission] event; an absent title is
    printed as [undefined]. *)
Definition permissionListener (chatId : string) (title : option string)
  : IO unit :=
  let shown := match title with Some t => t | None => "undefined" end in
  o <- io (TelegramSendMessage chatId
             ("🔐 *Permission Required*" ++ LF ++ LF ++ shown)
             true permissionKeyboard) ;;
  match o with
  | Resolved => Done tt
  | Rejected =>
      io (Base (LoggerError "Failed to send permission request to Telegram:"))
  end.

(** [TelegramAdapter.sendMessage(chatId, message)]: the chunks, plain, one
    after the other; a rejection is not caught. *)
Definition adapterSendMessage (fuel : nat) (chatId message : string)
  : option (IO Completion) :=
  match chunkMessage fuel message 4096 with
  | None => None
  | Some chunks =>
      Some (o <- send_each chatId false chunks ;; Done (finish o))
  end.

(** [TelegramAdapter.sendWithButtons]: one button per row. *)
Definition sendWithButtons (chatId message : string) (buttons : list Button)
  : IO Completion :=
  o <- io (TelegramSendMessage chatId message false
             (map (fun b => [b]) buttons)) ;;
  Done (finish o).

(** One message handed to Telegram without keyboard, taken or refused. *)
Definition taken (chatId : string) (markdown : bool) (text : string) : IOObs :=
  io_observed (TelegramSendMessage chatId text markdown []) Resolved.

Definition refused (chatId : string) (markdown : bool) (text : string) : IOObs :=
  io_observed (TelegramSendMessage chatId text markdown []) Rejected.

Definition is_interrupt (c : IOCall) : bool :=
  match c with SessionInterrupt _ => true | _ => false end.

Definition is_keyboard_reply (c : IOCall) : bool :=
  match c with CtxReplyKeyboard _ _ => true | _ => false end.

(** A reply to the user, with or without keyboard. *)
Definition is_reply (c : IOCall) : bool :=
  match c with
  | Base (CtxReply _) | CtxReplyKeyboard _ _ => true
  | _ => false
  end.

(** The end of a run of the output listener after a failure: a note in
    the log, the whole text once more without Markdown, and a second note
    if that fails too. *)
Definition after_failure (chatId data : string) (again : Settled)
  : list IOObs :=
  io_observed (Base (LoggerError "Failed to send output to Telegram:")) tt
  :: io_observed (TelegramSendMessage chatId data false []) again
  :: match again with
     | Resolved => []
     | Rejected =>
         [io_observed (Base (LoggerError "Failed to send plain text output:")) tt]
     end.

Definition io_count (kind : IOCall -> bool) (tr : list IOObs) : nat :=
  List.length (filter (fun o => kind (io_command o)) tr).

End IOPrograms.

Arguments Base {SessionRef} c.
Arguments ManagerClear {SessionRef} chatId.
Arguments SessionInterrupt {SessionRef} s.
Arguments FsReaddirSync {SessionRef} path.
Arguments CtxReplyKeyboard {SessionRef} text rows.
Arguments TelegramSendMessage {SessionRef} chatId text markdown rows.
Arguments Done {SessionRef A} a.
Arguments Then {SessionRef A} c k.
Arguments io_bind {SessionRef A B} p f.
Arguments io {SessionRef} c.
Arguments io_and_then {SessionRef} p q.
Arguments io_observed {SessionRef} c r.
Arguments io_command {SessionRef} o.
Arguments io_run {SessionRef St A} respond p st.
Arguments io_every {SessionRef A} P p.
Arguments taken {SessionRef} chatId markdown text.
Arguments refused {SessionRef} chatId markdown text.
Arguments is_interrupt {SessionRef} c.
Arguments is_keyboard_reply {SessionRef} c.
Arguments is_reply {SessionRef} c.
Arguments after_failure {SessionRef} chatId data again.
Arguments io_count {SessionRef} kind tr.

(** A prompt for a permission, as an output of a Session. *)
Definition sample_prompt : string := "🔐 *Permission Required*".

(** Collaborators for concrete runs: as [sample_respond], and Telegram
    takes every message. *)
Definition sample_io (c : IOCall nat) (st : unit) : IOResp nat c * unit :=
  (match c as c0 return IOResp nat c0 with
   | Base c' => fst (sample_respond c' st)
   | ManagerClear _ => Some true
   | SessionInterrupt _ => Resolved
   | FsReaddirSync _ =>
       Some [ mkDirent "demo" true; mkDirent ".git" true;
              mkDirent "notes.txt" false; mkDirent "site" true ]
   | CtxReplyKeyboard _ _ => Resolved
   | TelegramSendMessage _ _ _ _ => Resolved
   end, st).

End AdapterIO.

(* ===================================================================== *)
(** ** Facts about the string primitives *)
(* ===================================================================== *)

Module JsStringFacts.
Import JsString.

Lemma len_nonneg (s : string) : 0 <= len s.
Proof. unfold len. lia. Qed.

Lemma take_length (n : nat) (s : string) :
  String.length (take n s) = Nat.min n (String.length s).
Proof.
  revert s. induction n as [|n IH]; intros [|c s]; simpl; auto.
Qed.

Lemma drop_length (n : nat) (s : string) :
  String.length (drop n s) = (String.length s - n)%nat.
Proof.
  revert s. induction n as [|n IH]; intros [|c s]; simpl; auto.
Qed.

Lemma trimStart_length (s : string) :
  (String.length (trimStart s) <= String.length s)%nat.
Proof.
  induction s as [|c s IH]; simpl; [lia|].
  destruct (is_white c); simpl; lia.
Qed.

Lemma trimEnd_length (s : string) :
  (String.length (trimEnd s) <= String.length s)%nat.
Proof.
  induction s as [|c s IH]; simpl; [lia|].
  destruct (trimEnd s) as [|d t]; simpl in *.
  - destruct (is_white c); simpl; lia.
  - lia.
Qed.

Lemma trim_length (s : string) :
  (String.length (trim s) <= String.length s)%nat.
Proof.
  unfold trim.
  pose proof (trimStart_length (trimEnd s)).
  pose proof (trimEnd_length s). lia.
Qed.

(** What [slice(start)] leaves is at most what lies beyond [start]. *)
Lemma slice_from_length (s : string) (start : Z) :
  0 <= start ->
  len (slice_from s start) <= len s - Z.min start (len s).
Proof.
  intros Hs. unfold slice_from, slice, rel_index.
  pose proof (len_nonneg s) as Hl.
  destruct (Z.ltb_spec start 0); [lia|].
  destruct (Z.ltb_spec (len s) 0); [lia|].
  unfold len in *. rewrite take_length, drop_length. lia.
Qed.

Lemma append_empty (a : string) : (a ++ "")%string = a.
Proof. induction a as [|x a IH]; simpl; [reflexivity|]. rewrite IH. reflexivity. Qed.

Lemma append_length (a b : string) :
  String.length (a ++ b) = (String.length a + String.length b)%nat.
Proof. induction a as [|x a IH]; simpl; [reflexivity|]. rewrite IH. reflexivity. Qed.

Lemma append_assoc (a b c : string) : (a ++ b) ++ c = a ++ b ++ c.
Proof. induction a as [|x a IH]; simpl; [reflexivity|]. rewrite IH. reflexivity. Qed.

Lemma take_add (n k : nat) (s : string) :
  take (n + k) s = take n s ++ take k (drop n s).
Proof.
  revert s. induction n as [|n IH]; intros s; simpl; [reflexivity|].
  destruct s as [|c s]; simpl.
  - destruct k; reflexivity.
  - rewrite IH. reflexivity.
Qed.

Lemma take_prefix (p t : string) :
  String.prefix p t = true -> take (String.length p) t = p.
Proof.
  revert t. induction p as [|c p IH]; intros [|d t] Hp; simpl in *;
    try reflexivity; try discriminate.
  destruct (Ascii.ascii_dec c d) as [->|]; [|discriminate].
  rewrite IH by assumption. reflexivity.
Qed.

(** What the downward scan answers is [-1] or the place of an occurrence
    not beyond the start. *)
Lemma last_occurrence_spec (pat s : string) (start : nat) :
  last_occurrence pat s start = -1
  \/ (0 <= last_occurrence pat s start <= Z.of_nat start
      /\ String.prefix pat (drop (Z.to_nat (last_occurrence pat s start)) s) = true).
Proof.
  induction start as [|j IH]; cbn [last_occurrence].
  - destruct (String.prefix pat (drop 0 s)) eqn:E; [right|left; reflexivity].
    split; [lia|]. exact E.
  - destruct (String.prefix pat (drop (S j) s)) eqn:E.
    + right. split; [lia|]. rewrite Nat2Z.id. exact E.
    + destruct IH as [IH|[IH1 IH2]]; [left; exact IH|right].
      split; [lia|exact IH2].
Qed.

Lemma lastIndexOf_spec (s pat : string) (position : Z) :
  lastIndexOf s pat position = -1
  \/ (0 <= lastIndexOf s pat position <= Z.max position 0
      /\ lastIndexOf s pat position <= len s - len pat
      /\ String.prefix pat (drop (Z.to_nat (lastIndexOf s pat position)) s) = true).
Proof.
  unfold lastIndexOf.
  destruct (Z.ltb_spec (Z.min (Z.max position 0) (len s - len pat)) 0);
    [left; reflexivity|].
  destruct (last_occurrence_spec pat s
              (Z.to_nat (Z.min (Z.max position 0) (len s - len pat))))
    as [Hnone|[Hrange Hocc]]; [left; exact Hnone|right].
  rewrite Z2Nat.id in Hrange by assumption.
  repeat split; try lia. exact Hocc.
Qed.

(** Trimming drops a white character that ends the string. *)
Lemma trimEnd_white_end (a : string) (c : ascii) :
  is_white c = true ->
  (String.length (trimEnd (a ++ String c EmptyString)) <= String.length a)%nat.
Proof.
  intros Hc. induction a as [|x a IH]; cbn [append trimEnd].
  - rewrite Hc. simpl. lia.
  - destruct (trimEnd (a ++ String c EmptyString)) as [|d t]; simpl in *.
    + destruct (is_white x); simpl; lia.
    + lia.
Qed.

(** [slice(0, end)] for an end that is not negative. *)
Lemma slice_to (s : string) (end_ : Z) :
  0 <= end_ -> slice s 0 end_ = take (Z.to_nat (Z.min end_ (len s))) s.
Proof.
  intros He. unfold slice, rel_index. pose proof (len_nonneg s).
  destruct (Z.ltb_spec 0 0); [lia|].
  destruct (Z.ltb_spec end_ 0); [lia|].
  replace (Z.to_nat (Z.min 0 (len s))) with 0%nat by lia.
  replace (Z.min end_ (len s) - Z.min 0 (len s)) with (Z.min end_ (len s)) by lia.
  destruct s; reflexivity.
Qed.

End JsStringFacts.

(* ===================================================================== *)
(** ** chunkMessage: progress and termination; an overlong chunk *)
(* ===================================================================== *)

Module ChunkFacts.
Import JsString Chunk JsStringFacts.

(** Each of the three preferred break points is taken only when it lies
    beyond half of [maxLength]; the fallback is [maxLength] itself. *)
Lemma breakPoint_positive (remaining : string) (maxLength : Z) :
  1 <= maxLength -> 1 <= breakPoint remaining maxLength.
Proof.
  intros Hm. unfold breakPoint.
  destruct (Z.ltb_spec maxLength (2 * lastIndexOf remaining LF maxLength)); [lia|].
  destruct (Z.ltb_spec maxLength (2 * lastIndexOf remaining ". " maxLength)); [lia|].
  destruct (Z.ltb_spec maxLength (2 * lastIndexOf remaining " " maxLength)); lia.
Qed.

Lemma rest_of_shorter (remaining : string) (maxLength : Z) :
  1 <= maxLength -> maxLength < len remaining ->
  (String.length (rest_of remaining maxLength) < String.length remaining)%nat.
Proof.
  intros Hm Hlong. unfold rest_of.
  pose proof (breakPoint_positive remaining maxLength Hm) as Hb.
  pose proof (trim_length (slice_from remaining (breakPoint remaining maxLength))) as Ht.
  pose proof (slice_from_length remaining (breakPoint remaining maxLength)) as Hs.
  unfold len in *. lia.
Qed.

(** With more fuel than characters, the loop leaves. *)
Lemma chunk_loop_returns (fuel : nat) (maxLength : Z) :
  1 <= maxLength ->
  forall remaining chunks,
    (String.length remaining < fuel)%nat ->
    exists result, chunk_loop fuel maxLength remaining chunks = Some result.
Proof.
  intros Hm. induction fuel as [|fuel IH]; intros remaining chunks Hfuel; [lia|].
  simpl.
  destruct (Z.ltb_spec 0 (len remaining)); [|eauto].
  destruct (Z.leb_spec (len remaining) maxLength); [eauto|].
  apply IH.
  pose proof (rest_of_shorter remaining maxLength Hm). lia.
Qed.

(** Fuel beyond what the loop used does not change its result. *)
Lemma chunk_loop_more_fuel (fuel : nat) (maxLength : Z) :
  forall remaining chunks result,
    chunk_loop fuel maxLength remaining chunks = Some result ->
    forall fuel', (fuel <= fuel')%nat ->
    chunk_loop fuel' maxLength remaining chunks = Some result.
Proof.
  induction fuel as [|fuel IH]; intros remaining chunks result Hrun fuel' Hle;
    [discriminate|].
  destruct fuel' as [|fuel']; [lia|].
  simpl in *.
  destruct (0 <? len remaining); [|assumption].
  destruct (len remaining <=? maxLength); [assumption|].
  eapply IH; [eassumption | lia].
Qed.

(** With [maxLength = 0] the break point is [0], nothing is consumed, and
    the loop never leaves on a text that trimming does not shorten. *)
Lemma chunk_loop_zero_diverges (fuel : nat) (chunks : list string) :
  chunk_loop fuel 0 "abc" chunks = None.
Proof.
  revert chunks. induction fuel as [|fuel IH]; intros chunks; [reflexivity|].
  change (chunk_loop (S fuel) 0 "abc" chunks)
    with (chunk_loop fuel 0 "abc" (chunks ++ [chunk_of "abc" 0])%list).
  apply IH.
Qed.

(** C10.  For every text and every [maxLength >= 1], [chunkMessage]
    terminates: in each iteration of the loop (entered with a [remaining]
    longer than [maxLength]) the break point is at least 1 and the new
    [remaining] is strictly shorter, so the loop returns a list of chunks
    within [length text + 1] evaluations of its condition, and more fuel
    returns the same list. *)
Theorem chunkMessage_terminates (text : string) (maxLength : Z) :
  1 <= maxLength ->
  (forall remaining,
      maxLength < len remaining ->
      1 <= breakPoint remaining maxLength /\
      (String.length (rest_of remaining maxLength) < String.length remaining)%nat) /\
  (exists chunks,
      forall fuel, (String.length text < fuel)%nat ->
                   chunkMessage fuel text maxLength = Some chunks).
Proof.
  intros Hm. split.
  - intros remaining Hlong. split.
    + apply breakPoint_positive; assumption.
    + apply rest_of_shorter; assumption.
  - unfold chunkMessage.
    destruct (len text <=? maxLength).
    + exists [text]. reflexivity.
    + destruct (chunk_loop_returns (S (String.length text)) maxLength Hm text [])
        as [result Hresult]; [lia|].
      exists result. intros fuel Hfuel.
      eapply chunk_loop_more_fuel; [eassumption | lia].
Qed.

Lemma chunkMessage_terminates_witness :
  1 <= 10 /\
  exists chunks,
    chunkMessage 40 "hello world. this is a test of chunking" 10 = Some chunks.
Proof.
  split; [lia|].
  destruct (chunkMessage_terminates "hello world. this is a test of chunking" 10)
    as [_ [chunks Hchunks]]; [lia|].
  exists chunks. apply Hchunks. simpl. lia.
Defined.

(** *** How long a chunk can get *)

(** The chunk cut after an occurrence of [body ++ white] found at [r]
    keeps at most the [r] characters before it and [body]. *)
Lemma chunk_after_occurrence (s body : string) (c : ascii) (r : Z) :
  is_white c = true ->
  0 <= r -> r <= len s - len (body ++ String c EmptyString) ->
  String.prefix (body ++ String c EmptyString) (drop (Z.to_nat r) s) = true ->
  len (trim (slice s 0 (r + len (body ++ String c EmptyString)))) <= r + len body.
Proof.
  intros Hc Hr Hfit Hocc.
  rewrite slice_to by (unfold len; lia).
  replace (Z.to_nat (Z.min (r + len (body ++ String c EmptyString)) (len s)))
    with (Z.to_nat r + String.length (body ++ String c EmptyString))%nat
    by (unfold len in *; lia).
  rewrite take_add, (take_prefix _ _ Hocc), <- append_assoc.
  unfold trim.
  pose proof (trimStart_length (trimEnd ((take (Z.to_nat r) s ++ body)
                                           ++ String c EmptyString))) as H1.
  pose proof (trimEnd_white_end (take (Z.to_nat r) s ++ body) c Hc) as H2.
  rewrite append_length, take_length in H2.
  unfold len in *. lia.
Qed.

(** No chunk cut by the loop is longer than [maxLength + 1]. *)
Lemma chunk_of_bound (remaining : string) (maxLength : Z) :
  1 <= maxLength ->
  len (chunk_of remaining maxLength) <= maxLength + 1.
Proof.
  intros Hm. unfold chunk_of, breakPoint.
  destruct (Z.ltb_spec maxLength (2 * lastIndexOf remaining LF maxLength)) as [H1|H1].
  { destruct (lastIndexOf_spec remaining LF maxLength) as [E|(Hr & Hfit & Hocc)]; [lia|].
    pose proof (chunk_after_occurrence remaining "" (ascii_of_nat 10)
                  (lastIndexOf remaining LF maxLength) eq_refl) as Hb.
    change ("" ++ String (ascii_of_nat 10) "") with LF in Hb.
    change (len LF) with 1 in *. change (len "") with 0 in Hb.
    specialize (Hb ltac:(lia) Hfit Hocc). lia. }
  destruct (Z.ltb_spec maxLength (2 * lastIndexOf remaining ". " maxLength)) as [H2|H2].
  { destruct (lastIndexOf_spec remaining ". " maxLength) as [E|(Hr & Hfit & Hocc)]; [lia|].
    pose proof (chunk_after_occurrence remaining "." " "%char
                  (lastIndexOf remaining ". " maxLength) eq_refl) as Hb.
    change ("." ++ String " "%char "") with ". " in Hb.
    change (len ". ") with 2 in *. change (len ".") with 1 in Hb.
    specialize (Hb ltac:(lia) Hfit Hocc). lia. }
  destruct (Z.ltb_spec maxLength (2 * lastIndexOf remaining " " maxLength)) as [H3|H3].
  { destruct (lastIndexOf_spec remaining " " maxLength) as [E|(Hr & Hfit & Hocc)]; [lia|].
    pose proof (chunk_after_occurrence remaining "" " "%char
                  (lastIndexOf remaining " " maxLength) eq_refl) as Hb.
    change ("" ++ String " "%char "") with " " in Hb.
    change (len " ") with 1 in *. change (len "") with 0 in Hb.
    specialize (Hb ltac:(lia) Hfit Hocc). lia. }
  rewrite slice_to by lia.
  pose proof (trim_length (take (Z.to_nat (Z.min maxLength (len remaining))) remaining)) as Ht.
  rewrite take_length in Ht. unfold len in *. lia.
Qed.

Lemma chunk_loop_bound (fuel : nat) (maxLength : Z) :
  1 <= maxLength ->
  forall remaining chunks result,
    chunk_loop fuel maxLength remaining chunks = Some result ->
    Forall (fun c => len c <= maxLength + 1) chunks ->
    Forall (fun c => len c <= maxLength + 1) result.
Proof.
  intros Hm. induction fuel as [|fuel IH]; intros remaining chunks result Hrun Hall;
    [discriminate|].
  simpl in Hrun.
  destruct (0 <? len remaining); [|injection Hrun as <-; exact Hall].
  destruct (Z.leb_spec (len remaining) maxLength) as [Hshort|Hlong].
  - injection Hrun as <-. apply Forall_app. split; [exact Hall|].
    constructor; [lia|constructor].
  - eapply IH; [exact Hrun|].
    apply Forall_app. split; [exact Hall|].
    constructor; [apply chunk_of_bound; exact Hm|constructor].
Qed.

(** Whatever [chunkMessage] returns for [maxLength >= 1], no chunk is
    longer than [maxLength + 1]: the sentence-end search overshoots by one
    character and no more. *)
Lemma chunkMessage_bound (fuel : nat) (text : string) (maxLength : Z)
      (chunks : list string) :
  1 <= maxLength ->
  chunkMessage fuel text maxLength = Some chunks ->
  Forall (fun c => len c <= maxLength + 1) chunks.
Proof.
  intros Hm. unfold chunkMessage.
  destruct (Z.leb_spec (len text) maxLength) as [Hshort|Hlong]; intros Hrun.
  - injection Hrun as <-. constructor; [lia|constructor].
  - eapply chunk_loop_bound; [exact Hm|exact Hrun|constructor].
Qed.

(** *** A sentence end found exactly at [maxLength] *)

Lemma letters_length (n : nat) (t : string) :
  String.length (letters n ++ t) = (n + String.length t)%nat.
Proof. induction n as [|n IH]; simpl; [reflexivity|]. rewrite IH. reflexivity. Qed.

Lemma letters_drop (n i : nat) (t : string) :
  (i <= n)%nat -> drop i (letters n ++ t) = letters (n - i) ++ t.
Proof.
  revert i. induction n as [|n IH]; intros [|i] Hle; simpl; try reflexivity; [lia|].
  apply IH. lia.
Qed.

Lemma letters_take (n k : nat) (t : string) :
  take (n + k) (letters n ++ t) = letters n ++ take k t.
Proof. induction n as [|n IH]; simpl; [reflexivity|]. rewrite IH. reflexivity. Qed.

Lemma letters_drop_beyond (n k : nat) (t : string) :
  drop (n + k) (letters n ++ t) = drop k t.
Proof. induction n as [|n IH]; simpl; [reflexivity|]. exact IH. Qed.

(** No line feed begins at or before the full stop. *)
Lemma no_line_feed (n i : nat) :
  (i <= n)%nat -> last_occurrence LF (letters n ++ ". b") i = -1.
Proof.
  intros Hle. induction i as [|i IH]; cbn [last_occurrence];
    rewrite letters_drop by lia.
  - destruct (n - 0)%nat; reflexivity.
  - destruct (n - S i)%nat; cbn [letters append prefix];
      (rewrite IH by lia; reflexivity) || (simpl; rewrite IH by lia; reflexivity).
Qed.

Lemma trimEnd_sentence (n : nat) :
  trimEnd (letters n ++ ". ") = letters n ++ ".".
Proof.
  induction n as [|n IH]; [reflexivity|].
  cbn [letters append trimEnd]. rewrite IH.
  destruct n; reflexivity.
Qed.

(** The text of [n] letters followed by [". b"], chunked at [n]: the first
    chunk keeps the full stop and has [n + 1] characters. *)
Lemma chunk_with_sentence_end_at_limit (n : nat) :
  (1 <= n)%nat ->
  chunkMessage 3 (letters n ++ ". b") (Z.of_nat n)
  = Some [letters n ++ "."; "b"]
  /\ len (letters n ++ ".") = Z.of_nat n + 1.
Proof.
  intros Hn.
  assert (Hlen : len (letters n ++ ". b") = Z.of_nat n + 3).
  { unfold len. rewrite letters_length. simpl. lia. }
  assert (Hnewline : lastIndexOf (letters n ++ ". b") LF (Z.of_nat n) = -1).
  { unfold lastIndexOf. rewrite Hlen. change (len LF) with 1.
    replace (Z.min (Z.max (Z.of_nat n) 0) (Z.of_nat n + 3 - 1)) with (Z.of_nat n) by lia.
    destruct (Z.ltb_spec (Z.of_nat n) 0); [lia|].
    rewrite Nat2Z.id. apply no_line_feed. lia. }
  assert (Hperiod : lastIndexOf (letters n ++ ". b") ". " (Z.of_nat n) = Z.of_nat n).
  { unfold lastIndexOf. rewrite Hlen. change (len ". ") with 2.
    replace (Z.min (Z.max (Z.of_nat n) 0) (Z.of_nat n + 3 - 2)) with (Z.of_nat n) by lia.
    destruct (Z.ltb_spec (Z.of_nat n) 0); [lia|].
    rewrite Nat2Z.id. destruct n; cbn [last_occurrence];
      rewrite letters_drop by lia; rewrite Nat.sub_diag; reflexivity. }
  assert (Hbreak : breakPoint (letters n ++ ". b") (Z.of_nat n) = Z.of_nat n + 2).
  { unfold breakPoint. rewrite Hnewline, Hperiod.
    destruct (Z.ltb_spec (Z.of_nat n) (2 * -1)); [lia|].
    destruct (Z.ltb_spec (Z.of_nat n) (2 * Z.of_nat n)); [reflexivity|lia]. }
  assert (Hchunk : chunk_of (letters n ++ ". b") (Z.of_nat n) = letters n ++ ".").
  { unfold chunk_of, slice, rel_index. rewrite Hbreak, Hlen.
    destruct (Z.ltb_spec 0 0); [lia|].
    destruct (Z.ltb_spec (Z.of_nat n + 2) 0); [lia|].
    replace (Z.to_nat (Z.min (Z.of_nat n + 2) (Z.of_nat n + 3)
                       - Z.min 0 (Z.of_nat n + 3))) with (n + 2)%nat by lia.
    replace (Z.to_nat (Z.min 0 (Z.of_nat n + 3))) with 0%nat by lia.
    cbn [drop]. rewrite letters_take. cbn [take].
    unfold trim. rewrite trimEnd_sentence.
    destruct n; [lia|reflexivity]. }
  assert (Hrest : rest_of (letters n ++ ". b") (Z.of_nat n) = "b").
  { unfold rest_of, slice_from, slice, rel_index. rewrite Hbreak, Hlen.
    destruct (Z.ltb_spec (Z.of_nat n + 2) 0); [lia|].
    destruct (Z.ltb_spec (Z.of_nat n + 3) 0); [lia|].
    replace (Z.to_nat (Z.min (Z.of_nat n + 3) (Z.of_nat n + 3)
                       - Z.min (Z.of_nat n + 2) (Z.of_nat n + 3))) with 1%nat by lia.
    replace (Z.to_nat (Z.min (Z.of_nat n + 2) (Z.of_nat n + 3))) with (n + 2)%nat by lia.
    rewrite letters_drop_beyond. reflexivity. }
  split.
  - unfold chunkMessage. rewrite Hlen.
    destruct (Z.leb_spec (Z.of_nat n + 3) (Z.of_nat n)); [lia|].
    cbn [chunk_loop]. rewrite Hlen.
    destruct (Z.ltb_spec 0 (Z.of_nat n + 3)); [|lia].
    destruct (Z.leb_spec (Z.of_nat n + 3) (Z.of_nat n)); [lia|].
    rewrite Hrest, Hchunk. change (len "b") with 1.
    destruct (Z.ltb_spec 0 1); [|lia].
    destruct (Z.leb_spec 1 (Z.of_nat n)); [reflexivity|lia].
  - unfold len. rewrite letters_length. simpl. lia.
Qed.

Lemma chunk_with_sentence_end_at_limit_example :
  chunkMessage 3 "aa. b" 2 = Some ["aa."; "b"].
Proof. exact (proj1 (chunk_with_sentence_end_at_limit 2 (le_S _ _ (le_n 1)))). Defined.

(** C8 (the code departs from it).  A sentence end found at index
    [maxLength] itself puts the break point at [maxLength + 2]; trimming
    removes only the blank, and the chunk keeps [maxLength + 1] characters.
    With [maxLength = 4] the text [aaaa. b] is cut into [aaaa.] (5
    characters) and [b]; with the adapter's limit of 4096, 4096 letters
    followed by a full stop, a blank and a letter give a first chunk of
    4097 characters. *)
Theorem chunkMessage_overlong_chunk :
  chunkMessage 3 "aaaa. b" 4 = Some ["aaaa."; "b"]
  /\ 4 < len "aaaa."
  /\ chunkMessage 3 (letters 4096 ++ ". b") 4096
     = Some [letters 4096 ++ "."; "b"]
  /\ len (letters 4096 ++ ".") = 4097.
Proof.
  assert (H4096 : (1 <= 4096)%nat) by (apply Nat.leb_le; reflexivity).
  destruct (chunk_with_sentence_end_at_limit 4096 H4096) as [Hchunks Hlen].
  split; [reflexivity|]. split; [reflexivity|].
  split; [exact Hchunks | exact Hlen].
Qed.

End ChunkFacts.

(* ===================================================================== *)
(** ** The formatter: dispatch, deltas, independence of evaluations *)
(* ===================================================================== *)

Module FormatterFacts.
Import JsString Formatter.

Lemma strings_of_app (l1 l2 : list (option string)) :
  strings_of (l1 ++ l2)%list = (strings_of l1 ++ strings_of l2)%list.
Proof.
  induction l1 as [|[s|] l1 IH]; simpl; [reflexivity| |assumption].
  rewrite IH. reflexivity.
Qed.

Lemma formatted_app (proto : string -> option string) (ps qs : list Part)
      (options : FormatOptions) :
  formatted proto (ps ++ qs)%list options
  = (formatted proto ps options ++ formatted proto qs options)%list.
Proof.
  unfold formatted. rewrite map_app, filter_app, strings_of_app. reflexivity.
Qed.

(** C3, against the claim as stated.  A snapshot part is a member of the
    [Part] union whose type is none of the six handled kinds; it falls to
    the [default] branch and yields [null] under every options value,
    without any notice.  And a reasoning part, one of the six, is not
    passed to its formatter under the default options. *)
Lemma formatPart_default_branch_reached :
  ~ In (part_type PartSnapshot) handled_types
  /\ (forall proto options, formatPart proto PartSnapshot options = None)
  /\ (forall proto,
         formatPart proto (PartReasoning (mkReasoningPart (Some "plan")))
                    no_options = None).
Proof.
  split; [|split].
  - simpl. intros H. repeat (destruct H as [H|H]; [discriminate H|]). exact H.
  - intros proto options. reflexivity.
  - intros proto. reflexivity.
Qed.

(** C3, amended.  [formatPart] names six kinds.  A text part always goes to
    [formatTextPart]; a tool, file, reasoning, step-start or step-finish
    part goes to the formatter of its kind when the merged options include
    that kind, and yields [null] otherwise; every other kind of the union
    (snapshot, patch, agent, retry, compaction) falls to the [default]
    branch and yields [null].  So the result is [null] exactly for the
    parts that are not rendered. *)
Theorem formatPart_dispatch (proto : string -> option string) (part : Part)
        (options : FormatOptions) :
  let opts := merge_options DEFAULT_OPTIONS options in
  match part with
  | PartText p => formatPart proto part options = Some (formatTextPart p)
  | PartTool p =>
      formatPart proto part options
      = if r_includeTools opts then Some (formatToolPart proto p opts) else None
  | PartFile p =>
      formatPart proto part options
      = if r_includeFiles opts then Some (formatFilePart p opts) else None
  | PartReasoning p =>
      formatPart proto part options
      = if r_includeReasoning opts then Some (formatReasoningPart p opts) else None
  | PartStepStart =>
      formatPart proto part options
      = if r_includeSteps opts then Some formatStepStartPart else None
  | PartStepFinish =>
      formatPart proto part options
      = if r_includeSteps opts then Some formatStepFinishPart else None
  | PartSnapshot | PartPatch | PartAgent | PartRetry | PartCompaction =>
      ~ In (part_type part) handled_types /\ formatPart proto part options = None
  end
  /\ (formatPart proto part options = None
      <-> rendered opts (part_type part) = false).
Proof.
  assert (Hout : forall t : string,
             ~ In t handled_types <->
             (t <> "text" /\ t <> "tool" /\ t <> "file" /\ t <> "reasoning"
              /\ t <> "step-start" /\ t <> "step-finish")).
  { intros t. unfold handled_types. simpl. intuition congruence. }
  cbv zeta. unfold formatPart.
  destruct part as [p|p|p|p| | | | | | | ]; simpl part_type; cbv beta iota;
    unfold rendered; simpl String.eqb;
    try (destruct (r_includeTools _)); try (destruct (r_includeFiles _));
    try (destruct (r_includeReasoning _)); try (destruct (r_includeSteps _));
    simpl; repeat split; try reflexivity; try discriminate; try tauto;
    try (apply Hout; repeat split; discriminate).
Qed.

(** C7.  [formatDelta] returns the delta exactly when the part is a text
    part and the delta is present and not empty; for every other part
    kind, and for an absent or empty delta, it returns [null]. *)
Theorem formatDelta_text_only (part : Part) (delta : option string) :
  (forall d, formatDelta part delta = Some d
             <-> part_type part = "text" /\ delta = Some d /\ d <> EmptyString)
  /\ (part_type part <> "text" \/ delta = None \/ delta = Some EmptyString
      <-> formatDelta part delta = None).
Proof.
  unfold formatDelta.
  destruct delta as [[|c d0]|]; simpl.
  - split.
    + intros d. split; [discriminate|]. intros (_ & H & Hne). congruence.
    + tauto.
  - destruct (String.eqb_spec (part_type part) "text") as [Ht|Ht].
    + split.
      * intros d. split.
        -- intros H. inversion H; subst. repeat split; try assumption. discriminate.
        -- intros (_ & H & _). exact H.
      * split; [|discriminate].
        intros [H|[H|H]]; [contradiction|discriminate|discriminate].
    + split.
      * intros d. split; [discriminate|]. intros (H & _). contradiction.
      * tauto.
  - split.
    + intros d. split; [discriminate|]. intros (_ & H & _). discriminate.
    + tauto.
Qed.




End FormatterFacts.

(* ===================================================================== *)
(** ** The Session: one turn of the event loop, and the busy guard *)
(* ===================================================================== *)

Module SessionFacts.
Import Session JsStringFacts.

(** A text fragment only grows the buffer: no notification, same status. *)
Lemma handle_text_fragment (now : Z) (s : Session) (t : string) :
  status s <> terminated ->
  handle_event now s (partUpdated (TextFragment t))
  = (with_buffer (with_activity s now) (outputBuffer s ++ t) (subEvents s), []).
Proof.
  intros Hlive. unfold handle_event.
  destruct (status s); try reflexivity. contradiction.
Qed.

(** [statusChanged(idle)] on a busy Session flushes and makes it idle. *)
Lemma handle_idle_while_busy (now : Z) (s : Session) :
  status s = busy ->
  handle_event now s (statusChanged AgentIdle)
  = flush (with_status (with_activity s now) idle).
Proof.
  intros Hbusy. unfold handle_event. rewrite Hbusy.
  cbn [with_activity status]. rewrite Hbusy. reflexivity.
Qed.

Lemma run_events_cons (s : Session) (now : Z) (e : Event)
      (rest : list (Z * Event)) :
  run_events s ((now, e) :: rest)
  = (fst (run_events (fst (handle_event now s e)) rest),
     (snd (handle_event now s e)
        ++ snd (run_events (fst (handle_event now s e)) rest))%list).
Proof.
  cbn [run_events]. destruct (handle_event now s e) as [s1 n1].
  cbn [fst snd]. destruct (run_events s1 rest) as [s2 n2]. reflexivity.
Qed.

(** A turn of any number of text fragments: whatever a busy Session had
    buffered leaves, followed by the fragments in order, as the single
    notification of the turn. *)
Lemma busy_turn_flushes_buffer (fragments : list (Z * string)) :
  forall (s : Session) (now : Z),
    status s = busy ->
    snd (run_events s (text_stream fragments ++ [(now, statusChanged AgentIdle)]))
    = [output (outputBuffer s ++ concat_texts fragments)]
    /\ status (fst (run_events s (text_stream fragments
                                     ++ [(now, statusChanged AgentIdle)]))) = idle
    /\ outputBuffer (fst (run_events s (text_stream fragments
                                           ++ [(now, statusChanged AgentIdle)])))
       = EmptyString.
Proof.
  induction fragments as [|[m t] rest IH]; intros s now Hbusy.
  - cbn [text_stream map app concat_texts].
    rewrite run_events_cons, handle_idle_while_busy by exact Hbusy.
    rewrite append_empty. repeat split.
  - cbn [text_stream map app concat_texts fst snd].
    rewrite run_events_cons, handle_text_fragment
      by (rewrite Hbusy; discriminate).
    cbn [fst snd app].
    specialize (IH (with_buffer (with_activity s m) (outputBuffer s ++ t)
                                (subEvents s)) now Hbusy).
    change (outputBuffer (with_buffer (with_activity s m) (outputBuffer s ++ t)
                                      (subEvents s)))
      with (outputBuffer s ++ t)%string in IH at 1.
    rewrite append_assoc in IH. exact IH.
Qed.

(** A text in front of another leaves it unchanged only when empty. *)
Lemma append_left_empty (b x : string) : b ++ x = x -> b = EmptyString.
Proof.
  intros H. apply (f_equal String.length) in H. rewrite append_length in H.
  destruct b; [reflexivity|]. simpl in H. lia.
Qed.

(** C1, against the claim as stated.  A busy Session that already holds a
    fragment of its turn in [outputBuffer] emits, on three more fragments
    and [statusChanged(idle)], one [output] whose text begins with what
    was buffered: it is not the concatenation of the three fragments. *)
Lemma output_begins_with_buffered_text :
  status sample_mid_turn = busy
  /\ snd (run_events sample_mid_turn
                     [ (1, partUpdated (TextFragment "Hi"));
                       (2, partUpdated (TextFragment ", "));
                       (3, partUpdated (TextFragment "there"));
                       (4, statusChanged AgentIdle) ])
     = [output "XHi, there"]
  /\ snd (run_events sample_mid_turn
                     [ (1, partUpdated (TextFragment "Hi"));
                       (2, partUpdated (TextFragment ", "));
                       (3, partUpdated (TextFragment "there"));
                       (4, statusChanged AgentIdle) ])
     <> [output ("Hi" ++ ", " ++ "there")].
Proof.
  split; [reflexivity|]. split; [vm_compute; reflexivity|].
  vm_compute. discriminate.
Qed.

(** C1, amended.  For every busy Session, a stream of three [partUpdated]
    text fragments followed by [statusChanged(idle)] makes the Session emit
    exactly one notification, an [output].  Its text is what the buffer
    held when the stream began, followed by the three fragments in arrival
    order: it is the concatenation of the three fragments exactly when the
    buffer was empty, that is when nothing of the turn was delivered
    before.  The Session is then idle with an empty buffer. *)
Theorem three_fragments_one_output (s : Session) (t1 t2 t3 : string)
        (n1 n2 n3 n4 : Z) :
  status s = busy ->
  let '(s', notifications) :=
    run_events s [ (n1, partUpdated (TextFragment t1));
                   (n2, partUpdated (TextFragment t2));
                   (n3, partUpdated (TextFragment t3));
                   (n4, statusChanged AgentIdle) ] in
  notifications = [output (outputBuffer s ++ t1 ++ t2 ++ t3)]
  /\ (outputBuffer s = EmptyString <->
      notifications = [output (t1 ++ t2 ++ t3)])
  /\ status s' = idle
  /\ outputBuffer s' = EmptyString.
Proof.
  intros Hbusy.
  pose proof (busy_turn_flushes_buffer [(n1, t1); (n2, t2); (n3, t3)] s n4 Hbusy)
    as (Hout & Hstatus & Hbuffer).
  cbn [text_stream map app concat_texts fst snd] in Hout, Hstatus, Hbuffer.
  rewrite append_empty in Hout.
  destruct (run_events s _) as [s' notifications].
  cbn [fst snd] in Hout, Hstatus, Hbuffer.
  repeat split; try assumption.
  - intros Hempty. rewrite Hout, Hempty. reflexivity.
  - intros Hplain. rewrite Hout in Hplain. injection Hplain as Hplain.
    exact (append_left_empty _ _ Hplain).
Qed.

Lemma three_fragments_one_output_witness :
  snd (run_events sample_busy
                  [ (1, partUpdated (TextFragment "Hi"));
                    (2, partUpdated (TextFragment ", "));
                    (3, partUpdated (TextFragment "there"));
                    (4, statusChanged AgentIdle) ])
  = [output "Hi, there"].
Proof.
  pose proof (three_fragments_one_output sample_busy "Hi" ", " "there" 1 2 3 4
                eq_refl) as H.
  destruct (run_events sample_busy _) as [s' notifications].
  destruct H as (_ & H & _). exact (proj1 H eq_refl).
Defined.

(** C2.  For every busy Session, [sendMessage] is rejected with [Busy],
    the Session is left as it was, and nothing is forwarded to the Agent
    Client (and nothing is notified). *)
Theorem sendMessage_busy_rejected (s : Session) (message : string) (now : Z) :
  status s = busy ->
  sendMessage s message now = mkOutcome (Some Busy) s [] [].
Proof.
  intros Hbusy. unfold sendMessage. rewrite Hbusy. reflexivity.
Qed.

Lemma sendMessage_busy_rejected_witness :
  returned (sendMessage sample_busy "hello" 5) = Some Busy
  /\ after (sendMessage sample_busy "hello" 5) = sample_busy
  /\ forwarded (sendMessage sample_busy "hello" 5) = [].
Proof.
  rewrite (sendMessage_busy_rejected sample_busy "hello" 5 eq_refl).
  simpl. auto.
Defined.

(** The guard is what keeps the message away: the same call on the same
    Session, idle, is accepted and forwarded. *)
Lemma sendMessage_idle_forwarded (s : Session) (message : string) (now : Z)
      (agent : string) :
  status s = idle -> agentSessionId s = Some agent ->
  returned (sendMessage s message now) = None
  /\ status (after (sendMessage s message now)) = busy
  /\ forwarded (sendMessage s message now) = [AgentSendMessage agent message].
Proof.
  intros Hidle Hagent. unfold sendMessage. rewrite Hidle, Hagent. simpl. auto.
Qed.

End SessionFacts.

(* ===================================================================== *)
(** ** The adapter: authorization, permission buttons, incoming messages *)
(* ===================================================================== *)

Module AdapterFacts.
Import JsString Adapter.

Section Runs.

Variable SessionRef : Type.
Variable path_join : string -> string -> string.
Variable config : Config.

(** What holds of every run holds of the run against any collaborators. *)
Lemma run_every_run {St A : Type}
      (respond : forall c : Call SessionRef, St -> Resp SessionRef c * St)
      (p : Prog SessionRef A) :
  forall (P : list (Obs SessionRef) -> A -> Prop) (st : St),
    every_run P p ->
    P (fst (run respond p st)) (snd (run respond p st)).
Proof.
  induction p as [a|c k IH]; intros P st Hall; simpl in *.
  - exact Hall.
  - destruct (respond c st) as [r st'].
    specialize (IH r (fun tr a => P (observed c r :: tr) a) st' (Hall r)).
    destruct (run respond (k r) st') as [tr a]. exact IH.
Qed.

(** Splitting a list around one of its elements, one position at a time. *)
Lemma cons_eq_app {X : Type} (a x : X) (l pre post : list X) :
  a :: l = (pre ++ x :: post)%list ->
  (pre = [] /\ a = x /\ l = post)
  \/ (exists pre', pre = a :: pre' /\ l = (pre' ++ x :: post)%list).
Proof.
  destruct pre as [|b pre']; simpl; intros H; inversion H; subst; eauto.
Qed.

Lemma nil_eq_app {X : Type} (x : X) (pre post : list X) :
  [] = (pre ++ x :: post)%list -> False.
Proof. destruct pre; discriminate. Qed.

(** A property of every run may be weakened. *)
Lemma every_run_impl {A : Type} (p : Prog SessionRef A) :
  forall (P Q : list (Obs SessionRef) -> A -> Prop),
    every_run P p ->
    (forall tr a, P tr a -> Q tr a) ->
    every_run Q p.
Proof.
  induction p as [a|c k IH]; intros P Q Hall Himp; simpl in *.
  - apply Himp. exact Hall.
  - intros r. eapply IH; [apply Hall|].
    intros tr a. apply Himp.
Qed.

End Runs.

Arguments every_run_impl {SessionRef A} p P Q.

(** Answer the next call in every way it can be answered. *)
Ltac answer :=
  let r := fresh "r" in
  intro r;
  let T := type of r in
  let T' := eval cbn in T in
  lazymatch T' with
  | Settled => destruct r
  | bool => destruct r
  | option _ => destruct r
  | unit => destruct r
  | _ => idtac
  end.

(** Close a goal about a call that occurs nowhere in a concrete trace. *)
Ltac no_such_call :=
  let o := fresh "o" in
  let Hin := fresh "Hin" in
  let Hcmd := fresh "Hcmd" in
  intros o ? ? Hin Hcmd; simpl in Hin;
  repeat (destruct Hin as [Hin|Hin]; [subst o; simpl in Hcmd; discriminate Hcmd|]);
  contradiction.

(** In a concrete trace, the reply to a permission carries the decision
    of the button whose data is recorded in [Hcb]. *)
Ltac reply_is Hcb :=
  let o := fresh "o" in
  let Hin := fresh "Hin" in
  let Hcmd := fresh "Hcmd" in
  intros o ? ? Hin Hcmd; simpl in Hin;
  repeat (destruct Hin as [Hin|Hin];
          [subst o; simpl in Hcmd;
           first [ discriminate Hcmd
                 | injection Hcmd as <- <-;
                   split; [first [exact Hcb | reflexivity] | simpl; tauto] ] |]);
  contradiction.

(** In a concrete trace of a permission button, find the shape the run
    took. *)
Ltac names_it :=
  let d := fresh "d" in
  let Hd := fresh "Hd" in
  let Hq := fresh "Hq" in
  intros d Hd Hq; injection Hq as Hq; simpl in Hd;
  destruct Hd as [<-|[<-|[<-|[]]]]; try discriminate Hq;
  first [ left; reflexivity
        | right; left; reflexivity
        | right; right; do 3 eexists; reflexivity ].

(** Membership in a concrete trace, trying each position in turn. *)
Ltac in_trace :=
  simpl; solve [ repeat first [ left; reflexivity | right ] ].

Ltac at_some_position :=
  (left; reflexivity) + (right; at_some_position).

(** The shape of the beginning of a concrete trace of [handleMessage]. *)
Ltac session_found :=
  do 3 eexists; split; [reflexivity|];
  let H := fresh "Hlive" in
  intros H;
  first [ discriminate H
        | do 2 eexists; split; [reflexivity|];
          cbv beta iota;
          first [ do 2 eexists; reflexivity
                | let o := fresh "o" in
                  let Hin := fresh "Hin" in
                  let Hcmd := fresh "Hcmd" in
                  intros o ? ? ? Hin Hcmd; simpl in Hin;
                  repeat (destruct Hin as [Hin|Hin];
                          [subst o; simpl in Hcmd; discriminate Hcmd|]);
                  contradiction ] ].

(** Every position of a concrete trace at which [sendMessage] stands comes
    after the Session was obtained and found running or started. *)
Ltac sent_after_start :=
  let pre := fresh "pre" in
  let o := fresh "o" in
  let post := fresh "post" in
  let Hsplit := fresh "Hsplit" in
  let Hcmd := fresh "Hcmd" in
  intros pre o post ? ? Hsplit Hcmd;
  repeat (apply cons_eq_app in Hsplit;
          let pre' := fresh "pre" in
          let Hp := fresh "Hp" in
          let Ho := fresh "Ho" in
          let Hq := fresh "Hq" in
          destruct Hsplit as [(Hp & Ho & Hq) | (pre' & Hp & Hsplit)];
          [ rewrite <- Ho in Hcmd; cbn [command observed projT1] in Hcmd;
            first [ discriminate Hcmd
                  | injection Hcmd as <- <-; subst;
                    split; [reflexivity|];
                    split;
                    [ first [ left; in_trace
                            | right; left; in_trace
                            | right; right; in_trace ]
                    | first [ left; in_trace | right; in_trace ] ] ]
          | ]);
  apply nil_eq_app in Hsplit; contradiction.

(** A concrete trace holds the forwarded text or the notice that starting
    failed. *)
Ltac sent_or_told :=
  solve [ left; do 2 eexists; split; [simpl; at_some_position|]; reflexivity
        | right; eexists; split; [simpl; at_some_position|]; reflexivity ].

(** The whole of a concrete trace of [handleMessage]: how the Session was
    obtained, and what was done with it. *)
Ltac walk :=
  repeat (cbv beta iota; first [reflexivity | econstructor]).

Ltac served :=
  first
    [ do 3 eexists; exists (@nil _); do 5 eexists;
      split; [reflexivity|]; split; [left; split; reflexivity|]; solve [walk]
    | do 3 eexists; eexists [_; _; _; _; _]; do 5 eexists;
      split; [reflexivity|];
      split; [right; left; split; reflexivity|]; solve [walk]
    | do 3 eexists; eexists [_; _; _; _; _; _]; do 5 eexists;
      split; [reflexivity|];
      split; [right; right; split; reflexivity|]; solve [walk] ].

(** Walk the tree of calls of a handler, answering each call in every
    way. *)
Ltac explore :=
  repeat (cbn [every_run bind call and_then setupSessionOutput finish negb];
          lazymatch goal with
          | |- forall _ : Resp _ _, _ => answer
          end).

Section Middleware.

Variable SessionRef : Type.
Variable config : Config.

Lemma includes_spec (l : list Z) (id : Z) : includes l id = true <-> In id l.
Proof.
  unfold includes. rewrite existsb_exists. split.
  - intros (x & Hin & Heq). apply Z.eqb_eq in Heq. subst. exact Hin.
  - intros Hin. exists id. split; [exact Hin | apply Z.eqb_refl].
Qed.

(** The gate of the middleware, for a sender whose id is present. *)
Lemma authMiddleware_gate (ctx : Context) (userId : Z)
      (next : Prog SessionRef Completion) :
  from_id ctx = Some userId -> userId <> 0 ->
  authMiddleware SessionRef config ctx next
  = if (0 <? Z.of_nat (List.length (telegramAllowedUsers config)))
       && negb (includes (telegramAllowedUsers config) userId)
    then Step (LoggerWarn ("Unauthorized access attempt from user "
                             ++ String_of (Some userId)))
              (fun _ => Step (CtxReply unauthorized_notice)
                             (fun o => Ret (finish o)))
    else next.
Proof.
  intros Hfrom Hid. unfold authMiddleware. rewrite Hfrom.
  destruct userId as [|u|u]; [contradiction| |]; reflexivity.
Qed.

(** An update without a sender id is dropped with a warning, whatever the
    list: no notice is sent and the handlers do not run. *)
Lemma authMiddleware_no_sender (ctx : Context)
      (next : Prog SessionRef Completion) :
  from_id ctx = None \/ from_id ctx = Some 0 ->
  authMiddleware SessionRef config ctx next
  = Step (LoggerWarn "Message received without user ID") (fun _ => Ret Normal).
Proof.
  intros [H|H]; unfold authMiddleware; rewrite H; reflexivity.
Qed.

(** A sender on a non-empty list is passed through. *)
Lemma authMiddleware_listed (ctx : Context) (userId : Z)
      (next : Prog SessionRef Completion) :
  from_id ctx = Some userId -> userId <> 0 ->
  In userId (telegramAllowedUsers config) ->
  authMiddleware SessionRef config ctx next = next.
Proof.
  intros Hfrom Hid Hin.
  rewrite (authMiddleware_gate ctx userId next Hfrom Hid).
  apply includes_spec in Hin. rewrite Hin, andb_false_r. reflexivity.
Qed.

(** C9.  For every update whose sender has a user id: if the list of
    allowed users is not empty and the id is not in it, the run of the
    middleware consists of a warning in the log and the unauthorized notice
    sent to the sender, and of nothing else, whatever the handlers behind
    it are: no handler runs, so no Session is looked up, created, restored
    or changed.  If the list is empty, the middleware is the handlers
    themselves: the sender is passed through. *)
Theorem unauthorized_sender_blocked (St : Type) (ctx : Context) (userId : Z)
        (next : Prog SessionRef Completion)
        (respond : forall c : Call SessionRef, St -> Resp SessionRef c * St)
        (st : St) :
  from_id ctx = Some userId -> userId <> 0 ->
  (telegramAllowedUsers config <> [] ->
   ~ In userId (telegramAllowedUsers config) ->
   exists o,
     run respond (authMiddleware SessionRef config ctx next) st
     = ([ observed (LoggerWarn ("Unauthorized access attempt from user "
                                  ++ String_of (Some userId))) tt;
          observed (CtxReply unauthorized_notice) o ],
        finish o))
  /\ (telegramAllowedUsers config = [] ->
      authMiddleware SessionRef config ctx next = next).
Proof.
  intros Hfrom Hid.
  rewrite (authMiddleware_gate ctx userId next Hfrom Hid).
  split.
  - intros Hlist Hout.
    assert (Hlen : (0 <? Z.of_nat (List.length (telegramAllowedUsers config))) = true).
    { apply Z.ltb_lt. destruct (telegramAllowedUsers config); [contradiction|].
      simpl. lia. }
    assert (Hinc : includes (telegramAllowedUsers config) userId = false).
    { destruct (includes (telegramAllowedUsers config) userId) eqn:E; [|reflexivity].
      apply includes_spec in E. contradiction. }
    rewrite Hlen, Hinc. cbn [andb negb run].
    destruct (respond (LoggerWarn _) st) as [[] st1].
    destruct (respond (CtxReply unauthorized_notice) st1) as [o st2].
    exists o. reflexivity.
  - intros Hempty. rewrite Hempty. reflexivity.
Qed.

End Middleware.

Lemma unauthorized_sender_blocked_witness :
  exists o,
    fst (run sample_respond
             (authMiddleware nat sample_config sample_message
                             (handleMessage nat sample_message)) tt)
    = [ observed (LoggerWarn "Unauthorized access attempt from user 7") tt;
        observed (CtxReply unauthorized_notice) o ].
Proof.
  destruct (unauthorized_sender_blocked nat sample_config unit sample_message 7
              (handleMessage nat sample_message) sample_respond tt
              eq_refl ltac:(discriminate)) as [Hblocked _].
  destruct Hblocked as [o Ho].
  - discriminate.
  - simpl. intros [H|[H|[]]]; discriminate.
  - exists o. rewrite Ho. reflexivity.
Defined.

Section Handlers.

Variable SessionRef : Type.
Variable path_join : string -> string -> string.
Variable config : Config.

(** No path through [switchToProject] replies to a permission. *)
Lemma switchToProject_never_replies (chatId userId projectName : string) :
  every_run
    (fun tr _ => forall o s decision,
         In o tr -> command o <> SessionReplyToLatestPermission s decision)
    (switchToProject SessionRef path_join config chatId userId projectName).
Proof.
  unfold switchToProject. explore; no_such_call.
Qed.

(** Nor does any path through [handleMessage]. *)
Lemma handleMessage_never_replies (ctx : Context) :
  every_run
    (fun tr _ => forall o s decision,
         In o tr -> command o <> SessionReplyToLatestPermission s decision)
    (handleMessage SessionRef ctx).
Proof.
  unfold handleMessage. explore; no_such_call.
Qed.

(** C4.  For every callback received by [handleCallback] and every way
    its collaborators answer: a decision passed to
    [replyToLatestPermission] is the one the pressed button names (the
    callback data is [permission:] followed by that decision) and is one of
    [once], [always], [reject]; and a press of one of the three permission
    buttons passes its decision to the Session the manager holds for the
    chat, unless answering the callback query failed or the chat has no
    live Session. *)
Theorem permission_button_forwards_its_decision
        (St : Type) (ctx : Context)
        (respond : forall c : Call SessionRef, St -> Resp SessionRef c * St)
        (st : St) :
  let chatId := String_of (chat_id ctx) in
  let tr := fst (run respond (handleCallback SessionRef path_join config ctx) st) in
  (forall o s decision,
      In o tr ->
      command o = SessionReplyToLatestPermission s decision ->
      callbackQuery ctx = Some (Some ("permission:" ++ decision))
      /\ In decision ["once"; "always"; "reject"])
  /\ (forall decision,
         In decision ["once"; "always"; "reject"] ->
         callbackQuery ctx = Some (Some ("permission:" ++ decision)) ->
         tr = [observed CtxAnswerCbQuery Rejected]
         \/ tr = [observed CtxAnswerCbQuery Resolved;
                  observed (ManagerGet chatId) None]
         \/ exists s o rest,
             tr = observed CtxAnswerCbQuery Resolved
                  :: observed (ManagerGet chatId) (Some s)
                  :: observed (SessionReplyToLatestPermission s decision) o
                  :: rest).
Proof.
  cbv zeta.
  apply (run_every_run SessionRef respond
           (handleCallback SessionRef path_join config ctx)
           (fun tr _ =>
              (forall o s decision,
                  In o tr ->
                  command o = SessionReplyToLatestPermission s decision ->
                  callbackQuery ctx = Some (Some ("permission:" ++ decision))
                  /\ In decision ["once"; "always"; "reject"])
              /\ (forall decision,
                     In decision ["once"; "always"; "reject"] ->
                     callbackQuery ctx = Some (Some ("permission:" ++ decision)) ->
                     tr = [observed CtxAnswerCbQuery Rejected]
                     \/ tr = [observed CtxAnswerCbQuery Resolved;
                              observed (ManagerGet (String_of (chat_id ctx))) None]
                     \/ exists s o rest,
                         tr = observed CtxAnswerCbQuery Resolved
                              :: observed (ManagerGet (String_of (chat_id ctx))) (Some s)
                              :: observed (SessionReplyToLatestPermission s decision) o
                              :: rest))).
  unfold handleCallback.
  destruct (callbackQuery ctx) as [[data|]|] eqn:Hcb;
    [| split; [intros o s d []|intros d _ Hq; discriminate Hq]
     | split; [intros o s d []|intros d _ Hq; discriminate Hq] ].
  cbn [every_run bind call]. intros [|].
  2:{ split; [no_such_call|]. intros d _ _. left. reflexivity. }
  destruct (startsWith data "switch:") eqn:Hsw.
  { eapply every_run_impl; [apply switchToProject_never_replies|].
    intros tr a Hnone. cbv beta in Hnone. split.
    - intros o s d [<-|Hin] Hcmd; [discriminate Hcmd|].
      exfalso. exact (Hnone o s d Hin Hcmd).
    - intros d Hd Hq. injection Hq as ->.
      simpl in Hd. destruct Hd as [<-|[<-|[<-|[]]]]; discriminate Hsw. }
  destruct (String.eqb_spec data "permission:once") as [->|Hn1];
    [unfold permissionButton; explore; (split; [reply_is Hcb | names_it]) |].
  destruct (String.eqb_spec data "permission:always") as [->|Hn2];
    [unfold permissionButton; explore; (split; [reply_is Hcb | names_it]) |].
  destruct (String.eqb_spec data "permission:reject") as [->|Hn3];
    [unfold permissionButton; explore; (split; [reply_is Hcb | names_it]) |].
  assert (Hother : forall d, In d ["once"; "always"; "reject"] ->
                             Some (Some data) = Some (Some ("permission:" ++ d)) -> False).
  { intros d Hd Hq. injection Hq as Hq. simpl in Hd.
    destruct Hd as [<-|[<-|[<-|[]]]]; contradiction. }
  destruct (String.eqb data "confirm:yes");
    [unfold confirmButton; explore;
     (split; [no_such_call | intros d Hd Hq; destruct (Hother d Hd Hq)]) |].
  destruct (String.eqb data "confirm:no");
    [unfold confirmButton; explore;
     (split; [no_such_call | intros d Hd Hq; destruct (Hother d Hd Hq)]) |].
  split; [no_such_call | intros d Hd Hq; destruct (Hother d Hd Hq)].
Qed.

(** C5.  For every text message and every way the collaborators answer,
    the run of [handleMessage] begins by asking the manager for the live
    Session of the chat.  When there is none, the next call to the manager
    is [restore] for that chat; [getOrCreate] is called if [restore]
    answered absent, and is not called if it answered a Session.  Wherever
    the message text is passed to [sendMessage], the Session receiving it
    is the one the manager answered, and before that call either
    [isRunning] answered true for it or [start] resolved on it.  The run
    either passes the text on or tells the sender that starting failed.

    And the run does all of this: it obtains one Session, from [get], or
    else from [restore], or else from [getOrCreate] (the listeners are
    registered on a restored or created one); it asks that Session for its
    status and twice whether it is running.  If the Session runs, the text
    is passed to its [sendMessage].  If not, the start is announced and
    [start] is called on it; only when [start] and the two replies around
    it resolved is the text passed to [sendMessage]; when one of the three
    is rejected, the run ends with the failure notice and the text is not
    passed on. *)
Theorem message_restores_creates_starts_then_sends
        (St : Type) (ctx : Context)
        (respond : forall c : Call SessionRef, St -> Resp SessionRef c * St)
        (st : St) :
  let chatId := String_of (chat_id ctx) in
  let userId := String_of (from_id ctx) in
  let text := or_empty (message_text ctx) in
  let tr := fst (run respond (handleMessage SessionRef ctx) st) in
  let listeners := fun s : SessionRef =>
    [ observed (SessionOn s "output" chatId) tt;
      observed (SessionOn s "permission" chatId) tt;
      observed (SessionOn s "error" chatId) tt;
      observed (SessionOn s "terminated" chatId) tt ] in
  let sends := fun (s : SessionRef) (tail : list (Obs SessionRef)) =>
    exists o rest,
      tail = observed (LoggerInfo "Sending message to OpenCode session...") tt
             :: observed (SessionSendMessage s text) o :: rest in
  let fails := fun tail : list (Obs SessionRef) =>
    exists o,
      tail = [ observed (LoggerError "Failed to start session:") tt;
               observed (CtxReply start_failed_notice) o ] in
  (exists log live rest,
      tr = observed (LoggerInfo log) tt
           :: observed (ManagerGet chatId) live :: rest
      /\ (live = None ->
          exists restored rest',
            rest = observed (ManagerRestore chatId) restored :: rest'
            /\ match restored with
               | Some _ =>
                   forall o a b c,
                     In o rest' -> command o <> ManagerGetOrCreate a b c
               | None =>
                   exists s rest'',
                     rest' = observed (ManagerGetOrCreate chatId userId None) s
                             :: rest''
               end))
  /\ (forall pre o post s text',
         tr = (pre ++ o :: post)%list ->
         command o = SessionSendMessage s text' ->
         text' = text
         /\ (In (observed (ManagerGet chatId) (Some s)) pre
             \/ In (observed (ManagerRestore chatId) (Some s)) pre
             \/ In (observed (ManagerGetOrCreate chatId userId None) s) pre)
         /\ (In (observed (SessionIsRunning s) true) pre
             \/ In (observed (SessionStart s) Resolved) pre))
  /\ ((exists o s, In o tr /\ command o = SessionSendMessage s text)
      \/ (exists o, In o tr /\ command o = CtxReply start_failed_notice))
  /\ (exists log live s obtained status logged line running tail,
         tr = (observed (LoggerInfo log) tt
               :: observed (ManagerGet chatId) live
               :: obtained
               ++ observed (SessionGetStatus s) status
               :: observed (SessionIsRunning s) logged
               :: observed (LoggerInfo line) tt
               :: observed (SessionIsRunning s) running
               :: tail)%list
         /\ (live = Some s /\ obtained = []
             \/ live = None
                /\ obtained
                   = observed (ManagerRestore chatId) (Some s) :: listeners s
             \/ live = None
                /\ obtained
                   = observed (ManagerRestore chatId) None
                     :: observed (ManagerGetOrCreate chatId userId None) s
                     :: listeners s)
         /\ if running then sends s tail
            else
              exists announced tail1,
                tail = observed (CtxReply "🚀 Starting OpenCode session...")
                                announced :: tail1
                /\ match announced with
                   | Rejected => fails tail1
                   | Resolved =>
                       exists started tail2,
                         tail1 = observed (SessionStart s) started :: tail2
                         /\ match started with
                            | Rejected => fails tail2
                            | Resolved =>
                                exists ready tail3,
                                  tail2
                                  = observed (CtxReply "✅ OpenCode session ready!")
                                             ready :: tail3
                                  /\ match ready with
                                     | Rejected => fails tail3
                                     | Resolved => sends s tail3
                                     end
                            end
                   end).
Proof.
  cbv zeta.
  apply (run_every_run SessionRef respond (handleMessage SessionRef ctx)
           (fun tr _ =>
  (exists log live rest,
      tr = observed (LoggerInfo log) tt
           :: observed (ManagerGet (String_of (chat_id ctx))) live :: rest
      /\ (live = None ->
          exists restored rest',
            rest = observed (ManagerRestore (String_of (chat_id ctx))) restored :: rest'
            /\ match restored with
               | Some _ =>
                   forall o a b c,
                     In o rest' -> command o <> ManagerGetOrCreate a b c
               | None =>
                   exists s rest'',
                     rest' = observed (ManagerGetOrCreate (String_of (chat_id ctx))
                                         (String_of (from_id ctx)) None) s
                             :: rest''
               end))
  /\ (forall pre o post s text',
         tr = (pre ++ o :: post)%list ->
         command o = SessionSendMessage s text' ->
         text' = or_empty (message_text ctx)
         /\ (In (observed (ManagerGet (String_of (chat_id ctx))) (Some s)) pre
             \/ In (observed (ManagerRestore (String_of (chat_id ctx))) (Some s)) pre
             \/ In (observed (ManagerGetOrCreate (String_of (chat_id ctx))
                                (String_of (from_id ctx)) None) s) pre)
         /\ (In (observed (SessionIsRunning s) true) pre
             \/ In (observed (SessionStart s) Resolved) pre))
  /\ ((exists o s, In o tr /\ command o = SessionSendMessage s (or_empty (message_text ctx)))
      \/ (exists o, In o tr /\ command o = CtxReply start_failed_notice))
  /\ (exists log live s obtained status logged line running tail,
         tr = (observed (LoggerInfo log) tt
               :: observed (ManagerGet (String_of (chat_id ctx))) live
               :: obtained
               ++ observed (SessionGetStatus s) status
               :: observed (SessionIsRunning s) logged
               :: observed (LoggerInfo line) tt
               :: observed (SessionIsRunning s) running
               :: tail)%list
         /\ (live = Some s /\ obtained = []
             \/ live = None
                /\ obtained
                   = [ observed (ManagerRestore (String_of (chat_id ctx))) (Some s);
                       observed (SessionOn s "output" (String_of (chat_id ctx))) tt;
                       observed (SessionOn s "permission" (String_of (chat_id ctx))) tt;
                       observed (SessionOn s "error" (String_of (chat_id ctx))) tt;
                       observed (SessionOn s "terminated" (String_of (chat_id ctx))) tt ]
             \/ live = None
                /\ obtained
                   = [ observed (ManagerRestore (String_of (chat_id ctx))) None;
                       observed (ManagerGetOrCreate (String_of (chat_id ctx))
                                   (String_of (from_id ctx)) None) s;
                       observed (SessionOn s "output" (String_of (chat_id ctx))) tt;
                       observed (SessionOn s "permission" (String_of (chat_id ctx))) tt;
                       observed (SessionOn s "error" (String_of (chat_id ctx))) tt;
                       observed (SessionOn s "terminated" (String_of (chat_id ctx))) tt ])
         /\ if running
            then
              exists o rest,
                tail = observed (LoggerInfo "Sending message to OpenCode session...") tt
                       :: observed (SessionSendMessage s (or_empty (message_text ctx))) o
                       :: rest
            else
              exists announced tail1,
                tail = observed (CtxReply "🚀 Starting OpenCode session...")
                                announced :: tail1
                /\ match announced with
                   | Rejected =>
                       exists o,
                         tail1 = [ observed (LoggerError "Failed to start session:") tt;
                                   observed (CtxReply start_failed_notice) o ]
                   | Resolved =>
                       exists started tail2,
                         tail1 = observed (SessionStart s) started :: tail2
                         /\ match started with
                            | Rejected =>
                                exists o,
                                  tail2 = [ observed (LoggerError "Failed to start session:") tt;
                                            observed (CtxReply start_failed_notice) o ]
                            | Resolved =>
                                exists ready tail3,
                                  tail2
                                  = observed (CtxReply "✅ OpenCode session ready!")
                                             ready :: tail3
                                  /\ match ready with
                                     | Rejected =>
                                         exists o,
                                           tail3 = [ observed (LoggerError "Failed to start session:") tt;
                                                     observed (CtxReply start_failed_notice) o ]
                                     | Resolved =>
                                         exists o rest,
                                           tail3 = observed (LoggerInfo "Sending message to OpenCode session...") tt
                                                   :: observed (SessionSendMessage s (or_empty (message_text ctx))) o
                                                   :: rest
                                     end
                            end
                   end))).
  unfold handleMessage, start_failed_notice.
  explore;
    (split; [session_found
            | split; [sent_after_start | split; [sent_or_told | served]]]).
Qed.

End Handlers.

(** A first message in a chat with nothing live and nothing persisted:
    restore, then create, then start, then send. *)
Example handleMessage_fresh_chat :
  map command (fst (run sample_respond (handleMessage nat sample_message) tt))
  = [ LoggerInfo ("Received message from 42: " ++ dquote ++ "hello..." ++ dquote);
      ManagerGet "42"; ManagerRestore "42"; ManagerGetOrCreate "42" "7" None;
      SessionOn 1%nat "output" "42"; SessionOn 1%nat "permission" "42";
      SessionOn 1%nat "error" "42"; SessionOn 1%nat "terminated" "42";
      SessionGetStatus 1%nat; SessionIsRunning 1%nat;
      LoggerInfo "Session status: uninitialized, isRunning: false";
      SessionIsRunning 1%nat;
      CtxReply "🚀 Starting OpenCode session..."; SessionStart 1%nat;
      CtxReply "✅ OpenCode session ready!";
      LoggerInfo "Sending message to OpenCode session...";
      SessionSendMessage 1%nat "hello";
      LoggerInfo "Message sent successfully" ].
Proof. reflexivity. Qed.

(** The button [permission:always] on a chat with a live Session. *)
Example handleCallback_always :
  map command
      (fst (run sample_respond_live
                (handleCallback nat sample_join sample_config sample_button) tt))
  = [ CtxAnswerCbQuery; ManagerGet "42";
      SessionReplyToLatestPermission 1%nat "always";
      CtxReply "✅ Always allowed" ].
Proof. reflexivity. Qed.

End AdapterFacts.

(* ===================================================================== *)
(** ** chunkMessage: what the chunks keep, and their shape *)
(* ===================================================================== *)

Module ChunkMoreFacts.
Import JsString Chunk FormatterMore JsStringFacts ChunkFacts.

Lemma take_drop (n : nat) (s : string) : take n s ++ drop n s = s.
Proof.
  revert s. induction n as [|n IH]; intros [|c s]; simpl; try reflexivity.
  rewrite IH. reflexivity.
Qed.

Lemma take_all (n : nat) (s : string) :
  (String.length s <= n)%nat -> take n s = s.
Proof.
  revert s. induction n as [|n IH]; intros [|c s] Hle; simpl in *;
    try reflexivity; try lia.
  rewrite IH by lia. reflexivity.
Qed.

(** The two slices of one iteration split [remaining] at one place. *)
Lemma slice_split (s : string) (at_ : Z) :
  slice s 0 at_ ++ slice_from s at_ = s.
Proof.
  unfold slice_from, slice. pose proof (len_nonneg s) as Hl.
  assert (H0 : rel_index (len s) 0 = 0).
  { unfold rel_index. destruct (Z.ltb_spec 0 0); lia. }
  assert (Hlen : rel_index (len s) (len s) = len s).
  { unfold rel_index. destruct (Z.ltb_spec (len s) 0); lia. }
  assert (Hr : 0 <= rel_index (len s) at_ <= len s).
  { unfold rel_index. destruct (Z.ltb_spec at_ 0); lia. }
  rewrite H0, Hlen. cbn [Z.to_nat drop]. rewrite Z.sub_0_r.
  rewrite (take_all (Z.to_nat (len s - rel_index (len s) at_))).
  - destruct s; [destruct (Z.to_nat _); reflexivity|]. apply take_drop.
  - rewrite drop_length. unfold len in *. lia.
Qed.

Lemma nonwhite_app (a b : string) :
  nonwhite (a ++ b) = nonwhite a ++ nonwhite b.
Proof.
  induction a as [|c a IH]; simpl; [reflexivity|].
  destruct (is_white c); simpl; rewrite IH; reflexivity.
Qed.

Lemma nonwhite_trimStart (s : string) : nonwhite (trimStart s) = nonwhite s.
Proof.
  induction s as [|c s IH]; simpl; [reflexivity|].
  destruct (is_white c) eqn:E; [exact IH|]. simpl. rewrite E. reflexivity.
Qed.

Lemma nonwhite_trimEnd (s : string) : nonwhite (trimEnd s) = nonwhite s.
Proof.
  induction s as [|c s IH]; [reflexivity|].
  cbn [trimEnd nonwhite]. rewrite <- IH.
  destruct (trimEnd s) as [|d t].
  - destruct (is_white c) eqn:E; cbn [nonwhite]; rewrite ?E; reflexivity.
  - cbn [nonwhite]. reflexivity.
Qed.

Lemma nonwhite_trim (s : string) : nonwhite (trim s) = nonwhite s.
Proof. unfold trim. rewrite nonwhite_trimStart. apply nonwhite_trimEnd. Qed.

(** One iteration loses white space only. *)
Lemma iteration_keeps_nonwhite (remaining : string) (maxLength : Z) :
  nonwhite (chunk_of remaining maxLength) ++ nonwhite (rest_of remaining maxLength)
  = nonwhite remaining.
Proof.
  unfold chunk_of, rest_of. rewrite !nonwhite_trim, <- nonwhite_app, slice_split.
  reflexivity.
Qed.

Lemma flatten_app (l1 l2 : list string) :
  flatten (l1 ++ l2)%list = flatten l1 ++ flatten l2.
Proof.
  induction l1 as [|x l1 IH]; simpl; [reflexivity|].
  rewrite IH, append_assoc. reflexivity.
Qed.

Lemma chunk_loop_keeps_nonwhite (fuel : nat) (maxLength : Z) :
  forall remaining chunks result,
    chunk_loop fuel maxLength remaining chunks = Some result ->
    nonwhite (flatten result)
    = nonwhite (flatten chunks) ++ nonwhite remaining.
Proof.
  induction fuel as [|fuel IH]; intros remaining chunks result Hrun;
    [discriminate|].
  simpl in Hrun.
  destruct (Z.ltb_spec 0 (len remaining)) as [Hpos|Hzero].
  - destruct (len remaining <=? maxLength).
    + injection Hrun as <-.
      rewrite flatten_app, nonwhite_app. simpl. rewrite append_empty. reflexivity.
    + rewrite (IH _ _ _ Hrun), flatten_app, nonwhite_app. simpl.
      rewrite append_empty, append_assoc, iteration_keeps_nonwhite. reflexivity.
  - injection Hrun as <-.
    destruct remaining; [simpl; rewrite append_empty; reflexivity|].
    unfold len in Hzero. simpl in Hzero. lia.
Qed.

Lemma chunks_content (fuel : nat) (text : string) (maxLength : Z)
      (chunks : list string) :
  chunkMessage fuel text maxLength = Some chunks ->
  nonwhite (flatten chunks) = nonwhite text.
Proof.
  unfold chunkMessage. destruct (len text <=? maxLength); intros Hrun.
  - injection Hrun as <-. simpl. rewrite append_empty. reflexivity.
  - rewrite (chunk_loop_keeps_nonwhite _ _ _ _ _ Hrun). reflexivity.
Qed.

(** For [maxLength >= 1] one list of chunks is returned for every fuel
    beyond the length of the text. *)
Lemma chunks_total (text : string) (maxLength : Z) :
  1 <= maxLength ->
  exists chunks,
    forall fuel, (String.length text < fuel)%nat ->
                 chunkMessage fuel text maxLength = Some chunks.
Proof.
  intros Hm.
  destruct (chunk_loop_returns (S (String.length text)) maxLength Hm text [])
    as [result Hresult]; [lia|].
  exists (if len text <=? maxLength then [text] else result).
  intros fuel Hfuel. unfold chunkMessage.
  destruct (len text <=? maxLength); [reflexivity|].
  eapply chunk_loop_more_fuel; [exact Hresult|lia].
Qed.

(** Whatever [chunkMessage] returns, the chunks hold every character of
    the text that is not white space, in the order of the text, and no
    other such character: chunking moves or drops white space only. *)
Theorem chunks_keep_all_but_white_space (fuel : nat) (text : string)
        (maxLength : Z) (chunks : list string) :
  chunkMessage fuel text maxLength = Some chunks ->
  nonwhite (flatten chunks) = nonwhite text.
Proof. apply chunks_content. Qed.

Lemma chunks_keep_all_but_white_space_witness :
  nonwhite (flatten ["hello worl"; "d. this is"; "a test of"; "chunking"])
  = nonwhite "hello world. this is a test of chunking".
Proof.
  apply (chunks_keep_all_but_white_space
           40 "hello world. this is a test of chunking" 10).
  reflexivity.
Defined.

(** For [maxLength >= 1] the loop returns, and no chunk is longer than
    [maxLength + 1]. *)
Theorem chunks_within_one_of_limit (text : string) (maxLength : Z) :
  1 <= maxLength ->
  exists chunks,
    (forall fuel, (String.length text < fuel)%nat ->
                  chunkMessage fuel text maxLength = Some chunks)
    /\ Forall (fun c => len c <= maxLength + 1) chunks.
Proof.
  intros Hm. destruct (chunks_total text maxLength Hm) as [chunks Hrun].
  exists chunks. split; [exact Hrun|].
  apply (chunkMessage_bound (S (String.length text)) text maxLength _ Hm).
  apply Hrun. lia.
Qed.

Lemma chunks_within_one_of_limit_witness :
  exists chunks,
    chunkMessage 8 "aaaa. b" 4 = Some chunks
    /\ Forall (fun c => len c <= 5) chunks.
Proof.
  destruct (chunks_within_one_of_limit "aaaa. b" 4) as [chunks [Hrun Hall]]; [lia|].
  exists chunks. split; [apply Hrun; simpl; lia | exact Hall].
Defined.

(** *** The shape of the chunks *)

Lemma trimStart_begins (s : string) :
  trimStart s = EmptyString \/ starts_nonwhite (trimStart s) = true.
Proof.
  induction s as [|c s IH]; simpl; [left; reflexivity|].
  destruct (is_white c) eqn:E; [exact IH|]. right. simpl. rewrite E. reflexivity.
Qed.

Lemma trimEnd_keeps_head (c : ascii) (s : string) :
  is_white c = false -> exists t, trimEnd (String c s) = String c t.
Proof.
  intros E. cbn [trimEnd]. destruct (trimEnd s) as [|d t].
  - rewrite E. eauto.
  - eauto.
Qed.

Lemma trim_begins (s : string) :
  trim s = EmptyString \/ starts_nonwhite (trim s) = true.
Proof. unfold trim. apply trimStart_begins. Qed.

(** A chunk cut from a [remaining] that begins with a character that is
    not white space begins with that character. *)
Lemma chunk_of_begins (remaining : string) (maxLength : Z) :
  1 <= maxLength -> starts_nonwhite remaining = true ->
  starts_nonwhite (chunk_of remaining maxLength) = true.
Proof.
  intros Hm Hstart. unfold chunk_of.
  pose proof (breakPoint_positive remaining maxLength Hm) as Hb.
  rewrite slice_to by lia.
  destruct remaining as [|c rest]; [discriminate|].
  simpl in Hstart. apply negb_true_iff in Hstart.
  destruct (Z.to_nat (Z.min (breakPoint (String c rest) maxLength)
                            (len (String c rest)))) as [|k] eqn:Ek.
  { unfold len in Ek. simpl String.length in Ek. lia. }
  cbn [take]. unfold trim.
  destruct (trimEnd_keeps_head c (take k rest) Hstart) as [t ->].
  simpl. rewrite Hstart. simpl. rewrite Hstart. reflexivity.
Qed.

Lemma starts_nonwhite_length (s : string) :
  starts_nonwhite s = true -> 0 < len s.
Proof. destruct s; [discriminate|]. intros _. unfold len. simpl. lia. Qed.

Lemma chunk_loop_begins (fuel : nat) (maxLength : Z) :
  1 <= maxLength ->
  forall remaining chunks result,
    chunk_loop fuel maxLength remaining chunks = Some result ->
    remaining = EmptyString \/ starts_nonwhite remaining = true ->
    Forall (fun c => starts_nonwhite c = true) chunks ->
    Forall (fun c => starts_nonwhite c = true) result.
Proof.
  intros Hm. induction fuel as [|fuel IH];
    intros remaining chunks result Hrun Hrem Hall; [discriminate|].
  simpl in Hrun.
  destruct (Z.ltb_spec 0 (len remaining)) as [Hpos|Hzero];
    [|injection Hrun as <-; exact Hall].
  destruct Hrem as [->|Hrem]; [unfold len in Hpos; simpl in Hpos; lia|].
  destruct (len remaining <=? maxLength).
  - injection Hrun as <-. apply Forall_app. split; [exact Hall|].
    constructor; [exact Hrem|constructor].
  - eapply IH; [exact Hrun| |].
    + unfold rest_of. apply trim_begins.
    + apply Forall_app. split; [exact Hall|].
      constructor; [apply chunk_of_begins; assumption|constructor].
Qed.

(** For [maxLength >= 1] and a text that begins with a character that is
    not white space, no chunk is empty: each begins with such a
    character. *)
Theorem chunks_are_not_empty (fuel : nat) (text : string) (maxLength : Z)
        (chunks : list string) :
  1 <= maxLength ->
  starts_nonwhite text = true ->
  chunkMessage fuel text maxLength = Some chunks ->
  Forall (fun c => 0 < len c /\ starts_nonwhite c = true) chunks.
Proof.
  intros Hm Hstart Hrun.
  assert (Hall : Forall (fun c => starts_nonwhite c = true) chunks).
  { unfold chunkMessage in Hrun. destruct (len text <=? maxLength).
    - injection Hrun as <-. constructor; [exact Hstart|constructor].
    - eapply chunk_loop_begins; [exact Hm|exact Hrun|right; exact Hstart|constructor]. }
  eapply Forall_impl; [|exact Hall].
  intros c Hc. split; [apply starts_nonwhite_length|]; exact Hc.
Qed.

Lemma chunks_are_not_empty_witness :
  Forall (fun c => 0 < len c /\ starts_nonwhite c = true)
         ["hello worl"; "d. this is"; "a test of"; "chunking"].
Proof.
  apply (chunks_are_not_empty 40 "hello world. this is a test of chunking" 10);
    [lia|reflexivity|reflexivity].
Defined.

(** A text of blanks only, longer than the limit, does give an empty
    chunk: the guard above is needed. *)
Lemma blank_text_gives_empty_chunk :
  chunkMessage 8 "      " 4 = Some [""].
Proof. reflexivity. Qed.








End ChunkMoreFacts.

(* ===================================================================== *)
(** ** The formatter: lengths, lines and escaping *)
(* ===================================================================== *)

Module FormatterMoreFacts.
Import JsString Chunk Formatter FormatterMore JsStringFacts ChunkFacts.

Lemma len_app (a b : string) : len (a ++ b) = len a + len b.
Proof. unfold len. rewrite append_length. lia. Qed.

Lemma len_take (n : nat) (s : string) :
  len (take n s) = Z.min (Z.of_nat n) (len s).
Proof. unfold len. rewrite take_length. lia. Qed.

Lemma truncate_length (t : string) (maxLength : Z) :
  3 <= maxLength ->
  len (truncate t maxLength) <= maxLength
  /\ (maxLength < len t -> len (truncate t maxLength) = maxLength).
Proof.
  intros Hm. unfold truncate.
  destruct (Z.leb_spec (len t) maxLength) as [Hshort|Hlong]; [lia|].
  rewrite slice_to by lia.
  replace (Z.min (maxLength - 3) (len t)) with (maxLength - 3) by lia.
  rewrite len_app, len_take. change (len "...") with 3. lia.
Qed.

(** [truncate] for a limit of at least 3: the result fits the limit; a
    text within the limit is returned as it is; a longer one is cut to
    [maxLength - 3] characters followed by three dots, and has exactly
    [maxLength] characters. *)
Theorem truncate_fits (t : string) (maxLength : Z) :
  3 <= maxLength ->
  len (truncate t maxLength) <= maxLength
  /\ (len t <= maxLength -> truncate t maxLength = t)
  /\ (maxLength < len t ->
      truncate t maxLength = take (Z.to_nat (maxLength - 3)) t ++ "..."
      /\ len (truncate t maxLength) = maxLength).
Proof.
  intros Hm. unfold truncate.
  destruct (Z.leb_spec (len t) maxLength) as [Hshort|Hlong].
  - repeat split; try lia; reflexivity.
  - rewrite slice_to by lia.
    replace (Z.min (maxLength - 3) (len t)) with (maxLength - 3) by lia.
    rewrite len_app, len_take. change (len "...") with 3.
    repeat split; try lia; reflexivity.
Qed.

Lemma truncate_fits_witness :
  truncate "abcdefghij" 8 = "abcde..." /\ len (truncate "abcdefghij" 8) = 8.
Proof.
  destruct (truncate_fits "abcdefghij" 8) as (_ & _ & Hlong); [lia|].
  apply Hlong. unfold len. simpl. lia.
Defined.

(** A reasoning part never renders to more than 213 characters, however
    long its text. *)
Theorem reasoning_rendering_is_short (part : ReasoningPart)
        (opts : RequiredOptions) :
  len (formatReasoningPart part opts) <= 213.
Proof.
  unfold formatReasoningPart.
  destruct (r_compact opts || (len (or_else (reasoning_text part) "") =? 0)).
  - unfold len. simpl. lia.
  - rewrite len_app.
    destruct (truncate_length (or_else (reasoning_text part) "") 200) as [H _]; [lia|].
    change (len " _Thinking:_ ") with 13. lia.
Qed.

(** [formatCode] for a language name of at most 4033 characters: the block
    never exceeds Telegram's 4096 characters; when the whole block fits,
    the code is not altered; otherwise the block has 4044 characters. *)
Theorem formatCode_fits (code : string) (language : option string) :
  len (or_else language "") <= 4033 ->
  let lang := or_else language "" in
  let wrapped := fence ++ lang ++ LF ++ code ++ LF ++ fence in
  len (formatCode code language) <= TELEGRAM_MAX_LENGTH
  /\ (len wrapped <= TELEGRAM_MAX_LENGTH -> formatCode code language = wrapped)
  /\ (TELEGRAM_MAX_LENGTH < len wrapped -> len (formatCode code language) = 4044).
Proof.
  intros Hlang. cbv zeta. unfold formatCode.
  set (lang := or_else language "") in *.
  pose proof (len_nonneg lang) as Hl. pose proof (len_nonneg code) as Hc.
  assert (Hw : len (fence ++ lang ++ LF ++ code ++ LF ++ fence)
               = 8 + len lang + len code).
  { rewrite !len_app. change (len fence) with 3. change (len LF) with 1. lia. }
  destruct (Z.leb_spec (len (fence ++ lang ++ LF ++ code ++ LF ++ fence))
                       TELEGRAM_MAX_LENGTH) as [Hfit|Hover].
  - repeat split; try assumption; try reflexivity. lia.
  - unfold CODE_BLOCK_MAX_LENGTH, TELEGRAM_MAX_LENGTH in *.
    destruct (truncate_length code (4096 - 50 - len lang - 10)) as (_ & Hcut);
      [lia|].
    specialize (Hcut ltac:(lia)).
    rewrite !len_app, Hcut. change (len fence) with 3. change (len LF) with 1.
    repeat split; lia.
Qed.

Lemma formatCode_fits_witness :
  formatCode "let x = 1" (Some "js") = fence ++ "js" ++ LF ++ "let x = 1" ++ LF ++ fence.
Proof.
  destruct (formatCode_fits "let x = 1" (Some "js")) as (_ & Hsame & _).
  - unfold len. simpl. lia.
  - apply Hsame. unfold len, TELEGRAM_MAX_LENGTH. simpl. lia.
Defined.

(** *** escapeMarkdown *)

Lemma escapeMarkdown_app (a b : string) :
  escapeMarkdown (a ++ b) = escapeMarkdown a ++ escapeMarkdown b.
Proof.
  induction a as [|c a IH]; simpl; [reflexivity|].
  destruct (is_markdown c); simpl; rewrite IH; reflexivity.
Qed.

Lemma escapeMarkdown_undone (t : string) :
  unescapeMarkdown (escapeMarkdown t) = t.
Proof.
  induction t as [|c t IH]; [reflexivity|].
  cbn [escapeMarkdown]. destruct (is_markdown c) eqn:Ec.
  - cbn [unescapeMarkdown]. rewrite Ec. rewrite Ascii.eqb_refl. simpl.
    rewrite IH. reflexivity.
  - cbn [unescapeMarkdown].
    destruct (escapeMarkdown t) as [|d rest] eqn:Et.
    + destruct t as [|e t']; [reflexivity|].
      simpl in Et. destruct (is_markdown e); discriminate.
    + assert (Hguard : Ascii.eqb c backslash && is_markdown d = false).
      { destruct (Ascii.eqb c backslash) eqn:Eb; [|reflexivity].
        simpl. destruct t as [|e t']; [discriminate|].
        simpl in Et. destruct (is_markdown e) eqn:Ee.
        - injection Et as <- _. reflexivity.
        - injection Et as <- _. exact Ee. }
      rewrite Hguard, IH. reflexivity.
Qed.

Lemma escapeMarkdown_length (t : string) :
  len t <= len (escapeMarkdown t) <= 2 * len t.
Proof.
  unfold len. induction t as [|c t IH]; simpl; [lia|].
  destruct (is_markdown c); simpl; lia.
Qed.

(** [escapeMarkdown] works character by character (the escaping of two
    texts joined is the two escapings joined), at most doubles the length,
    and loses nothing: dropping the backslash in front of each of the five
    characters gives the text back, so two different texts are never
    escaped to the same one. *)
Theorem escapeMarkdown_loses_nothing (a b : string) :
  escapeMarkdown (a ++ b) = escapeMarkdown a ++ escapeMarkdown b
  /\ len a <= len (escapeMarkdown a) <= 2 * len a
  /\ unescapeMarkdown (escapeMarkdown a) = a
  /\ (escapeMarkdown a = escapeMarkdown b <-> a = b).
Proof.
  split; [apply escapeMarkdown_app|].
  split; [apply escapeMarkdown_length|].
  split; [apply escapeMarkdown_undone|].
  split; [|intros ->; reflexivity].
  intros Heq. rewrite <- (escapeMarkdown_undone a), <- (escapeMarkdown_undone b).
  rewrite Heq. reflexivity.
Qed.

(** *** The lines of formatParts *)

Lemma join_head (sep : string) (c : ascii) (x : string) (rest : list string) :
  exists y, join sep (String c x :: rest) = String c y.
Proof. destruct rest; simpl; eauto. Qed.

Section Rendering.

Variable proto : string -> option string.

Lemma formatToolPart_not_empty (part : ToolPart) (opts : RequiredOptions) :
  0 < len (formatToolPart proto part opts).
Proof.
  unfold formatToolPart, getStatusEmoji.
  destruct (r_compact opts).
  - destruct (state part); unfold len; simpl; lia.
  - destruct (state part); cbn [append];
      match goal with
      | |- 0 < len (join LF (String ?c ?x :: ?rest)) =>
          destruct (join_head LF c x rest) as [y ->]
      end; unfold len; simpl; lia.
Qed.

(** Which parts give a line. *)
Lemma keep_formatPart (part : Part) (options : FormatOptions) :
  keep (formatPart proto part options)
  = shows (merge_options DEFAULT_OPTIONS options) part.
Proof.
  unfold formatPart, shows.
  destruct part as [p|p|p|p| | | | | | | ]; try reflexivity.
  - unfold formatTextPart. destruct (text p) as [[|c t]|]; reflexivity.
  - destruct (r_includeTools _); [|reflexivity]. simpl.
    apply Z.ltb_lt. apply formatToolPart_not_empty.
  - destruct (r_includeFiles _); [|reflexivity]. simpl.
    unfold formatFilePart. destruct (r_compact _); reflexivity.
  - destruct (r_includeReasoning _); [|reflexivity]. simpl.
    unfold formatReasoningPart.
    destruct (r_compact _ || _); reflexivity.
  - destruct (r_includeSteps _); reflexivity.
  - destruct (r_includeSteps _); reflexivity.
Qed.

Lemma strings_of_kept_length (l : list (option string)) :
  List.length (strings_of (filter keep l)) = List.length (filter keep l).
Proof.
  induction l as [|[s|] l IH]; simpl; [reflexivity| |exact IH].
  destruct (0 <? len s); simpl; rewrite IH; reflexivity.
Qed.

Lemma formatted_not_empty (parts : list Part) (options : FormatOptions) :
  Forall (fun line => 0 < len line) (formatted proto parts options).
Proof.
  unfold formatted. induction parts as [|p parts IH]; simpl; [constructor|].
  destruct (formatPart proto p options) as [s|]; simpl; [|exact IH].
  destruct (Z.ltb_spec 0 (len s)); simpl; [constructor; assumption|exact IH].
Qed.

Lemma formatted_count (parts : list Part) (options : FormatOptions) :
  List.length (formatted proto parts options)
  = List.length (filter (shows (merge_options DEFAULT_OPTIONS options)) parts).
Proof.
  unfold formatted. rewrite strings_of_kept_length.
  induction parts as [|p parts IH]; simpl; [reflexivity|].
  rewrite keep_formatPart.
  destruct (shows _ p); simpl; rewrite IH; reflexivity.
Qed.

Lemma strings_of_present (l : list (option string)) :
  Forall (fun x => x <> None) l -> map Some (strings_of l) = l.
Proof.
  induction 1 as [|[s|] l Hx _ IH]; simpl; [reflexivity| |congruence].
  rewrite IH. reflexivity.
Qed.

Lemma shown_rendering (part : Part) (options : FormatOptions) :
  shows (merge_options DEFAULT_OPTIONS options) part = true ->
  exists rendering,
    formatPart proto part options = Some rendering /\ 0 < len rendering.
Proof.
  rewrite <- keep_formatPart. unfold keep.
  destruct (formatPart proto part options) as [s|]; [|discriminate].
  intros H. apply Z.ltb_lt in H. exists s. auto.
Qed.

Lemma filter_map_keep (parts : list Part) (options : FormatOptions) :
  filter keep (map (fun part => formatPart proto part options) parts)
  = map (fun part => formatPart proto part options)
        (filter (shows (merge_options DEFAULT_OPTIONS options)) parts).
Proof.
  induction parts as [|p parts IH]; simpl; [reflexivity|].
  rewrite keep_formatPart.
  destruct (shows _ p); simpl; rewrite IH; reflexivity.
Qed.

(** [formatParts] joins, with line feeds and in the order of the list,
    the renderings of exactly the parts that show: a text part with a
    non-empty text, and a tool, file, reasoning or step-start part of an
    included kind.  Each of these has a rendering that is not empty (and
    that may span several lines itself); every other part (a step-finish
    part, a text part without text, a part of an excluded or of another
    kind) is formatted to [null] or to the empty text and adds nothing. *)
Theorem one_rendering_per_shown_part (parts : list Part)
        (options : FormatOptions) :
  let opts := merge_options DEFAULT_OPTIONS options in
  formatParts proto parts options
  = join LF (strings_of (map (fun part => formatPart proto part options)
                             (filter (shows opts) parts)))
  /\ map Some (formatted proto parts options)
     = map (fun part => formatPart proto part options)
           (filter (shows opts) parts)
  /\ Forall (fun part =>
               exists rendering,
                 formatPart proto part options = Some rendering
                 /\ 0 < len rendering)
            (filter (shows opts) parts)
  /\ Forall (fun part =>
               formatPart proto part options = None
               \/ formatPart proto part options = Some EmptyString)
            (filter (fun part => negb (shows opts part)) parts).
Proof.
  cbv zeta. split; [|split; [|split]].
  - unfold formatParts, formatted. rewrite filter_map_keep. reflexivity.
  - unfold formatted. rewrite filter_map_keep.
    apply strings_of_present. apply Forall_forall. intros x Hin.
    apply in_map_iff in Hin as (part & <- & Hin).
    apply filter_In in Hin as [_ Hshows].
    destruct (shown_rendering part options Hshows) as (r & -> & _).
    discriminate.
  - apply Forall_forall. intros part Hin. apply filter_In in Hin as [_ Hshows].
    apply shown_rendering. exact Hshows.
  - apply Forall_forall. intros part Hin. apply filter_In in Hin as [_ Hshows].
    apply negb_true_iff in Hshows. rewrite <- keep_formatPart in Hshows.
    unfold keep in Hshows.
    destruct (formatPart proto part options) as [[|c s]|]; auto.
    unfold len in Hshows. simpl in Hshows. apply Z.ltb_ge in Hshows. lia.
Qed.

Lemma join_app (sep : string) (l1 l2 : list string) :
  l1 <> [] -> l2 <> [] ->
  join sep (l1 ++ l2)%list = join sep l1 ++ sep ++ join sep l2.
Proof.
  intros H1 H2. induction l1 as [|x l1 IH]; [contradiction|].
  destruct l1 as [|x' l1].
  - destruct l2 as [|y l2]; [contradiction|]. reflexivity.
  - change (join sep ((x :: x' :: l1) ++ l2)%list)
      with (x ++ sep ++ join sep ((x' :: l1) ++ l2)%list).
    rewrite IH by discriminate.
    change (join sep (x :: x' :: l1)) with (x ++ sep ++ join sep (x' :: l1)).
    rewrite !append_assoc. reflexivity.
Qed.

Lemma join_empty (l : list string) :
  Forall (fun line => 0 < len line) l ->
  (len (join LF l) =? 0) = match l with [] => true | _ => false end.
Proof.
  intros Hall. destruct l as [|x rest]; [reflexivity|].
  inversion Hall as [|? ? Hx _]; subst.
  destruct x as [|c x]; [unfold len in Hx; simpl in Hx; lia|].
  destruct (join_head LF c x rest) as [y ->]. reflexivity.
Qed.

(** Formatting two lists of parts one after the other: if one of them
    gives nothing, the result is the other's; otherwise the two results
    are joined by one line feed.  No blank line appears, whatever is
    skipped. *)
Theorem formatParts_app (ps qs : list Part) (options : FormatOptions) :
  formatParts proto (ps ++ qs)%list options
  = if len (formatParts proto ps options) =? 0 then formatParts proto qs options
    else if len (formatParts proto qs options) =? 0 then formatParts proto ps options
    else formatParts proto ps options ++ LF ++ formatParts proto qs options.
Proof.
  unfold formatParts.
  rewrite !join_empty by apply formatted_not_empty.
  rewrite FormatterFacts.formatted_app.
  destruct (formatted proto ps options) as [|x l1] eqn:E1; [reflexivity|].
  destruct (formatted proto qs options) as [|y l2] eqn:E2.
  - rewrite app_nil_r. reflexivity.
  - apply join_app; discriminate.
Qed.

(** *** formatPartsForTelegram *)

Lemma chunk_loop_extends (fuel : nat) (maxLength : Z) :
  forall remaining chunks result,
    chunk_loop fuel maxLength remaining chunks = Some result ->
    exists more, result = (chunks ++ more)%list
                 /\ (0 < len remaining -> more <> []).
Proof.
  induction fuel as [|fuel IH]; intros remaining chunks result Hrun;
    [discriminate|].
  simpl in Hrun.
  destruct (Z.ltb_spec 0 (len remaining)) as [Hpos|Hzero].
  - destruct (len remaining <=? maxLength).
    + injection Hrun as <-. exists [remaining]. split; [reflexivity|discriminate].
    + destruct (IH _ _ _ Hrun) as [more [-> _]].
      exists (chunk_of remaining maxLength :: more).
      rewrite <- app_assoc. split; [reflexivity|discriminate].
  - injection Hrun as <-. exists []. rewrite app_nil_r. split; [reflexivity|lia].
Qed.

(** [formatPartsForTelegram] always returns (the loop leaves within
    [length + 1] evaluations of its condition).  It returns no message
    exactly when no part shows; no message is longer than 4097 characters;
    and the messages hold, in order, every character of the formatted proto text
    that is not white space. *)
Theorem formatPartsForTelegram_messages (parts : list Part)
        (options : FormatOptions) :
  exists messages,
    (forall fuel,
        (String.length (formatParts proto parts options) < fuel)%nat ->
        formatPartsForTelegram proto fuel parts options = Some messages)
    /\ (messages = [] <->
        filter (shows (merge_options DEFAULT_OPTIONS options)) parts = [])
    /\ Forall (fun m => len m <= TELEGRAM_MAX_LENGTH + 1) messages
    /\ nonwhite (flatten messages) = nonwhite (formatParts proto parts options).
Proof.
  pose proof (formatted_count parts options) as Hcount.
  pose proof (formatted_not_empty parts options) as Hlines.
  assert (Hnone : (len (formatParts proto parts options) =? 0) = true
                  <-> filter (shows (merge_options DEFAULT_OPTIONS options)) parts = []).
  { unfold formatParts. rewrite join_empty by exact Hlines.
    destruct (formatted proto parts options); destruct (filter _ parts);
      simpl in Hcount; try discriminate; split; intros; congruence. }
  unfold formatPartsForTelegram.
  set (text := formatParts proto parts options) in *.
  destruct (len text =? 0) eqn:Ezero.
  - exists []. repeat split; try (intros; reflexivity); try tauto; try constructor.
    apply Z.eqb_eq in Ezero. destruct text; [reflexivity|].
    unfold len in Ezero. simpl in Ezero. lia.
  - assert (Hshown : filter (shows (merge_options DEFAULT_OPTIONS options)) parts <> []).
    { intros H. apply Hnone in H. congruence. }
    destruct (Z.leb_spec (len text) TELEGRAM_MAX_LENGTH) as [Hshort|Hlong].
    + exists [text]. repeat split; try (intros; reflexivity).
      * discriminate.
      * intros H. contradiction.
      * constructor; [lia|constructor].
      * simpl. rewrite append_empty. reflexivity.
    + assert (H1 : 1 <= TELEGRAM_MAX_LENGTH) by (unfold TELEGRAM_MAX_LENGTH; lia).
      destruct (ChunkMoreFacts.chunks_total text TELEGRAM_MAX_LENGTH H1)
        as [chunks Hrun].
      pose proof (Hrun (S (String.length text)) ltac:(lia)) as Hone.
      exists chunks. repeat split.
      * exact Hrun.
      * intros ->. exfalso. unfold chunkMessage in Hone.
        destruct (Z.leb_spec (len text) TELEGRAM_MAX_LENGTH); [lia|].
        destruct (chunk_loop_extends _ _ _ _ _ Hone) as [more [Hmore Hne]].
        simpl in Hmore. apply Hne; [lia|]. congruence.
      * intros H. contradiction.
      * eapply chunkMessage_bound; eassumption.
      * eapply ChunkMoreFacts.chunks_content; eassumption.
Qed.

End Rendering.

(** *** formatPermissionRequest *)

(** However a permission is titled, its prompt carries the mark
    [*Permission Required*]. *)
Lemma formatPermissionRequest_marked (permission : PermissionInfo) :
  includes_text (formatPermissionRequest permission) "*Permission Required*"
  = true.
Proof.
  unfold formatPermissionRequest.
  destruct (truthy (info_title permission)); reflexivity.
Qed.

End FormatterMoreFacts.

(* ===================================================================== *)
(** ** The adapter: what else its handlers do and never do *)
(* ===================================================================== *)

Module AdapterMoreFacts.
Import JsString Adapter AdapterMore AdapterFacts.

Section Gate.

Variable SessionRef : Type.
Variable config : Config.

(** An update without a sender id (none, or the id 0) is dropped whatever
    the list of allowed users is, even an empty one: the run is one
    warning in the log; no notice is sent and the handlers do not run. *)
Theorem sender_without_id_is_dropped
        (St : Type) (ctx : Context) (next : Prog SessionRef Completion)
        (respond : forall c : Call SessionRef, St -> Resp SessionRef c * St)
        (st : St) :
  from_id ctx = None \/ from_id ctx = Some 0 ->
  run respond (authMiddleware SessionRef config ctx next) st
  = ([observed (LoggerWarn "Message received without user ID") tt], Normal).
Proof.
  intros Hnone. rewrite (authMiddleware_no_sender SessionRef config ctx next Hnone).
  cbn [run]. destruct (respond (LoggerWarn _) st) as [[] st']. reflexivity.
Qed.

(** A sender whose id is on the list is passed through: the run of the
    middleware is the run of the handlers behind it. *)
Theorem listed_sender_passes
        (St : Type) (ctx : Context) (userId : Z)
        (next : Prog SessionRef Completion)
        (respond : forall c : Call SessionRef, St -> Resp SessionRef c * St)
        (st : St) :
  from_id ctx = Some userId -> userId <> 0 ->
  In userId (telegramAllowedUsers config) ->
  run respond (authMiddleware SessionRef config ctx next) st
  = run respond next st.
Proof.
  intros Hfrom Hid Hin.
  rewrite (authMiddleware_listed SessionRef config ctx userId next Hfrom Hid Hin).
  reflexivity.
Qed.

End Gate.

Lemma sender_without_id_is_dropped_witness :
  run sample_respond
      (authMiddleware nat (mkConfig [] "/home/user/projects") sample_anonymous
                      (handleMessage nat sample_anonymous)) tt
  = ([observed (LoggerWarn "Message received without user ID") tt], Normal).
Proof.
  apply (sender_without_id_is_dropped nat (mkConfig [] "/home/user/projects")
           unit sample_anonymous).
  left. reflexivity.
Defined.

Lemma listed_sender_passes_witness :
  run sample_respond
      (authMiddleware nat sample_config sample_listed
                      (handleMessage nat sample_listed)) tt
  = run sample_respond (handleMessage nat sample_listed) tt.
Proof.
  apply (listed_sender_passes nat sample_config unit sample_listed 1001).
  - reflexivity.
  - discriminate.
  - simpl. auto.
Defined.

Section MoreHandlers.

Variable SessionRef : Type.
Variable path_join : string -> string -> string.
Variable config : Config.

(** For every text message and every way the collaborators answer:
    [handleMessage] asks the manager for the live Session once, starts a
    Session at most once, and passes the text to [sendMessage] at most
    once; and when the manager answers a live Session, nothing is
    restored or created and no listener is registered. *)
Theorem handleMessage_forwards_at_most_once
        (St : Type) (ctx : Context)
        (respond : forall c : Call SessionRef, St -> Resp SessionRef c * St)
        (st : St) :
  let chatId := String_of (chat_id ctx) in
  let tr := fst (run respond (handleMessage SessionRef ctx) st) in
  (count is_send tr <= 1)%nat
  /\ (count is_start tr <= 1)%nat
  /\ exists log live rest,
      tr = observed (LoggerInfo log) tt
           :: observed (ManagerGet chatId) live :: rest
      /\ (live <> None -> count sets_up rest = 0%nat).
Proof.
  cbv zeta.
  apply (run_every_run SessionRef respond (handleMessage SessionRef ctx)
           (fun tr _ =>
              (count is_send tr <= 1)%nat
              /\ (count is_start tr <= 1)%nat
              /\ exists log live rest,
                  tr = observed (LoggerInfo log) tt
                       :: observed (ManagerGet (String_of (chat_id ctx))) live
                       :: rest
                  /\ (live <> None -> count sets_up rest = 0%nat))).
  unfold handleMessage.
  explore;
    (split; [unfold count; simpl; lia|];
     split; [unfold count; simpl; lia|];
     do 3 eexists; split; [reflexivity|];
     intros Hlive; first [reflexivity | exfalso; apply Hlive; reflexivity]).
Qed.

(** For every project name and every way the collaborators answer:
    [switchToProject] first asks whether the project directory exists, and
    if it does not, the only other call is the reply that says so.  The
    Session is persisted at most once, and only after [switchProject] or
    [start] resolved.  A live Session is switched in place: nothing is
    created or started then. *)
Theorem switchToProject_persists_after_success
        (St : Type) (chatId userId projectName : string)
        (respond : forall c : Call SessionRef, St -> Resp SessionRef c * St)
        (st : St) :
  let projectPath := path_join (projectsDir config) projectName in
  let tr := fst (run respond
                     (switchToProject SessionRef path_join config
                                      chatId userId projectName) st) in
  (exists found rest,
      tr = observed (FsExistsSync projectPath) found :: rest
      /\ (found = false ->
          exists o,
            rest = [observed (CtxReply ("❌ Project not found: " ++ projectName)) o]))
  /\ (count is_persist tr <= 1)%nat
  /\ (forall pre o post,
         tr = (pre ++ o :: post)%list ->
         command o = ManagerPersist chatId ->
         exists s,
           In (observed (SessionSwitchProject s projectPath) Resolved) pre
           \/ In (observed (SessionStart s) Resolved) pre)
  /\ (forall pre o post s,
         tr = (pre ++ o :: post)%list ->
         command o = SessionSwitchProject s projectPath ->
         count is_start tr = 0%nat
         /\ count sets_up tr = 0%nat).
Proof.
  cbv zeta.
  apply (run_every_run SessionRef respond
           (switchToProject SessionRef path_join config chatId userId projectName)
           (fun tr _ =>
  (exists found rest,
      tr = observed (FsExistsSync (path_join (projectsDir config) projectName)) found
           :: rest
      /\ (found = false ->
          exists o,
            rest = [observed (CtxReply ("❌ Project not found: " ++ projectName)) o]))
  /\ (count is_persist tr <= 1)%nat
  /\ (forall pre o post,
         tr = (pre ++ o :: post)%list ->
         command o = ManagerPersist chatId ->
         exists s,
           In (observed (SessionSwitchProject s (path_join (projectsDir config) projectName))
                        Resolved) pre
           \/ In (observed (SessionStart s) Resolved) pre)
  /\ (forall pre o post s,
         tr = (pre ++ o :: post)%list ->
         command o = SessionSwitchProject s (path_join (projectsDir config) projectName) ->
         count is_start tr = 0%nat
         /\ count sets_up tr = 0%nat))).
  unfold switchToProject.
  explore;
    (split;
     [ do 2 eexists; split; [reflexivity|];
       intros Hfound; first [discriminate Hfound | eexists; reflexivity]
     | split; [unfold count; simpl; lia|];
       split;
       [ intros pre o post Hsplit Hcmd;
         repeat (apply cons_eq_app in Hsplit;
                 let pre' := fresh "pre" in
                 let Hp := fresh "Hp" in
                 let Ho := fresh "Ho" in
                 let Hq := fresh "Hq" in
                 destruct Hsplit as [(Hp & Ho & Hq) | (pre' & Hp & Hsplit)];
                 [ rewrite <- Ho in Hcmd; cbn [command observed projT1] in Hcmd;
                   first [ discriminate Hcmd
                         | subst; eexists;
                           first [ left; in_trace | right; in_trace ] ]
                 | ]);
         apply nil_eq_app in Hsplit; contradiction
       | intros pre o post s0 Hsplit Hcmd;
         repeat (apply cons_eq_app in Hsplit;
                 let pre' := fresh "pre" in
                 let Hp := fresh "Hp" in
                 let Ho := fresh "Ho" in
                 let Hq := fresh "Hq" in
                 destruct Hsplit as [(Hp & Ho & Hq) | (pre' & Hp & Hsplit)];
                 [ rewrite <- Ho in Hcmd; cbn [command observed projT1] in Hcmd;
                   first [ discriminate Hcmd
                         | split; reflexivity ]
                 | ]);
         apply nil_eq_app in Hsplit; contradiction ] ]).
Qed.

Lemma switch_data (ctx : Context) (project : string) :
  callbackQuery ctx = Some (Some ("switch:" ++ project)) ->
  handleCallback SessionRef path_join config ctx
  = Step CtxAnswerCbQuery
         (fun answered =>
            match answered with
            | Rejected => Ret Uncaught
            | Resolved =>
                switchToProject SessionRef path_join config
                                (String_of (chat_id ctx))
                                (String_of (from_id ctx)) project
            end).
Proof.
  intros Hcb. unfold handleCallback. rewrite Hcb.
  assert (Hstarts : startsWith ("switch:" ++ project) "switch:" = true).
  { unfold startsWith. simpl. repeat (destruct (ascii_dec _ _); [|congruence]).
    destruct project; reflexivity. }
  rewrite Hstarts. reflexivity.
Qed.

(** Every button [handleProjects] builds is one [handleCallback] handles:
    a press of it (its callback data arriving) makes [handleCallback]
    answer the query and then run [switchToProject] with the name of one
    of the first ten projects, the one the button was built for, whatever
    that name is. *)
Theorem project_button_switches_to_its_project
        (projects : list string) (label data : string) (ctx : Context) :
  In (label, data) (concat (projectButtons projects)) ->
  callbackQuery ctx = Some (Some data) ->
  exists project,
    In project (firstn 10 projects)
    /\ label = "📂 " ++ project
    /\ handleCallback SessionRef path_join config ctx
       = Step CtxAnswerCbQuery
              (fun answered =>
                 match answered with
                 | Rejected => Ret Uncaught
                 | Resolved =>
                     switchToProject SessionRef path_join config
                                     (String_of (chat_id ctx))
                                     (String_of (from_id ctx)) project
                 end).
Proof.
  unfold projectButtons. intros Hin Hcb.
  apply in_concat in Hin. destruct Hin as (row & Hrow & Hin).
  apply in_map_iff in Hrow. destruct Hrow as (project & <- & Hproject).
  destruct Hin as [Hin|[]]. injection Hin as <- <-.
  exists project. split; [exact Hproject|]. split; [reflexivity|].
  apply switch_data. exact Hcb.
Qed.

(** Every button of the keyboard attached to a permission prompt is one
    [handleCallback] handles as a permission decision: a press of it makes
    [handleCallback] answer the query and then reply to the latest
    permission of the chat's Session with [once], [always] or [reject],
    the decision its callback data names. *)
Theorem permission_keyboard_is_handled
        (label data : string) (ctx : Context) :
  In (label, data) (concat permissionKeyboard) ->
  callbackQuery ctx = Some (Some data) ->
  exists decision confirmation,
    In decision ["once"; "always"; "reject"]
    /\ data = "permission:" ++ decision
    /\ handleCallback SessionRef path_join config ctx
       = Step CtxAnswerCbQuery
              (fun answered =>
                 match answered with
                 | Rejected => Ret Uncaught
                 | Resolved =>
                     permissionButton SessionRef (String_of (chat_id ctx))
                                      decision confirmation
                 end).
Proof.
  intros Hin Hcb. unfold handleCallback. rewrite Hcb.
  simpl in Hin.
  destruct Hin as [Hin|[Hin|[Hin|[]]]]; injection Hin as <- <-.
  - exists "once", "✅ Allowed once". simpl. auto.
  - exists "always", "✅ Always allowed". simpl. auto.
  - exists "reject", "❌ Rejected". simpl. auto 6.
Qed.

(** For every [/start] or [/help] and every way the collaborators answer:
    the welcome is sent first, and if sending it fails nothing else is
    done.  Otherwise the persisted Session of the chat is restored,
    [getOrCreate] is called exactly when there is none to restore, and the
    four output listeners are registered on that Session.  The handler
    never starts a Session and never sends it a message. *)
Theorem handleStart_sets_up_one_session
        (St : Type) (ctx : Context)
        (respond : forall c : Call SessionRef, St -> Resp SessionRef c * St)
        (st : St) :
  let chatId := String_of (chat_id ctx) in
  let userId := String_of (from_id ctx) in
  let tr := fst (run respond (handleHelp SessionRef ctx) st) in
  handleHelp SessionRef ctx = handleStart SessionRef ctx
  /\ count is_start tr = 0%nat
  /\ count is_send tr = 0%nat
  /\ (tr = [observed (CtxReply welcome) Rejected]
      \/ exists s,
          tr = [ observed (CtxReply welcome) Resolved;
                 observed (ManagerRestore chatId) (Some s);
                 observed (SessionOn s "output" chatId) tt;
                 observed (SessionOn s "permission" chatId) tt;
                 observed (SessionOn s "error" chatId) tt;
                 observed (SessionOn s "terminated" chatId) tt ]
          \/ tr = [ observed (CtxReply welcome) Resolved;
                    observed (ManagerRestore chatId) None;
                    observed (ManagerGetOrCreate chatId userId None) s;
                    observed (SessionOn s "output" chatId) tt;
                    observed (SessionOn s "permission" chatId) tt;
                    observed (SessionOn s "error" chatId) tt;
                    observed (SessionOn s "terminated" chatId) tt ]).
Proof.
  cbv zeta. split; [reflexivity|].
  apply (run_every_run SessionRef respond (handleHelp SessionRef ctx)
           (fun tr _ =>
  count is_start tr = 0%nat
  /\ count is_send tr = 0%nat
  /\ (tr = [observed (CtxReply welcome) Rejected]
      \/ exists s,
          tr = [ observed (CtxReply welcome) Resolved;
                 observed (ManagerRestore (String_of (chat_id ctx))) (Some s);
                 observed (SessionOn s "output" (String_of (chat_id ctx))) tt;
                 observed (SessionOn s "permission" (String_of (chat_id ctx))) tt;
                 observed (SessionOn s "error" (String_of (chat_id ctx))) tt;
                 observed (SessionOn s "terminated" (String_of (chat_id ctx))) tt ]
          \/ tr = [ observed (CtxReply welcome) Resolved;
                    observed (ManagerRestore (String_of (chat_id ctx))) None;
                    observed (ManagerGetOrCreate (String_of (chat_id ctx))
                                                 (String_of (from_id ctx)) None) s;
                    observed (SessionOn s "output" (String_of (chat_id ctx))) tt;
                    observed (SessionOn s "permission" (String_of (chat_id ctx))) tt;
                    observed (SessionOn s "error" (String_of (chat_id ctx))) tt;
                    observed (SessionOn s "terminated" (String_of (chat_id ctx))) tt ]))).
  unfold handleHelp, handleStart.
  explore;
    (split; [reflexivity|]; split; [reflexivity|];
     first [ left; reflexivity
           | right; eexists; left; reflexivity
           | right; eexists; right; reflexivity ]).
Qed.

End MoreHandlers.

Lemma project_button_switches_to_its_project_witness :
  handleCallback nat sample_join sample_config
                 (mkContext (Some 7) (Some 42) None (Some (Some "switch:demo")))
  = Step CtxAnswerCbQuery
         (fun answered =>
            match answered with
            | Rejected => Ret Uncaught
            | Resolved => switchToProject nat sample_join sample_config "42" "7" "demo"
            end).
Proof.
  destruct (project_button_switches_to_its_project nat sample_join sample_config
              ["demo"; "site"] "📂 demo" "switch:demo"
              (mkContext (Some 7) (Some 42) None (Some (Some "switch:demo"))))
    as (project & Hin & Hlabel & Hrun).
  - simpl. auto.
  - reflexivity.
  - injection Hlabel as <-. exact Hrun.
Defined.

Lemma permission_keyboard_is_handled_witness :
  exists decision confirmation,
    handleCallback nat sample_join sample_config sample_button
    = Step CtxAnswerCbQuery
           (fun answered =>
              match answered with
              | Rejected => Ret Uncaught
              | Resolved => permissionButton nat "42" decision confirmation
              end).
Proof.
  destruct (permission_keyboard_is_handled nat sample_join sample_config
              "✅ Always" "permission:always" sample_button)
    as (decision & confirmation & _ & _ & Hrun).
  - simpl. auto.
  - reflexivity.
  - exists decision, confirmation. exact Hrun.
Defined.

End AdapterMoreFacts.

(* ===================================================================== *)
(** ** The adapter: what reaches Telegram, /projects and /stop *)
(* ===================================================================== *)

Module AdapterIOFacts.
Import JsString Chunk Adapter AdapterMore AdapterIO FormatterMore.
Import JsStringFacts ChunkFacts.

Section IORuns.

Variable SessionRef : Type.

Lemma io_run_every {St A : Type}
      (respond : forall c : IOCall SessionRef, St -> IOResp SessionRef c * St)
      (p : IO SessionRef A) :
  forall (P : list (IOObs SessionRef) -> A -> Prop) (st : St),
    io_every P p ->
    P (fst (io_run respond p st)) (snd (io_run respond p st)).
Proof.
  induction p as [a|c k IH]; intros P st Hall; simpl in *.
  - exact Hall.
  - destruct (respond c st) as [r st'].
    specialize (IH r (fun tr a => P (io_observed c r :: tr) a) st' (Hall r)).
    destruct (io_run respond (k r) st') as [tr a]. exact IH.
Qed.

Lemma io_every_impl {A : Type} (p : IO SessionRef A) :
  forall (P Q : list (IOObs SessionRef) -> A -> Prop),
    io_every P p ->
    (forall tr a, P tr a -> Q tr a) ->
    io_every Q p.
Proof.
  induction p as [a|c k IH]; intros P Q Hall Himp; simpl in *.
  - apply Himp. exact Hall.
  - intros r. eapply IH; [apply Hall|].
    intros tr a. apply Himp.
Qed.

(** Every run of [p] followed by [f] is a run of [p] and then a run of
    [f] on its result. *)
Lemma io_every_bind {A B : Type} (p : IO SessionRef A)
      (f : A -> IO SessionRef B) :
  forall (P : list (IOObs SessionRef) -> B -> Prop),
    io_every (fun tr a => io_every (fun tr' b => P (tr ++ tr')%list b) (f a)) p ->
    io_every P (io_bind p f).
Proof.
  induction p as [a|c k IH]; intros P Hall; simpl in *.
  - exact Hall.
  - intros r. apply IH. exact (Hall r).
Qed.

(** The loop over the chunks: either every chunk is taken, or the chunks
    before the first refused one are taken and nothing after it is sent. *)
Lemma send_each_runs (chatId : string) (markdown : bool) (chunks : list string) :
  io_every
    (fun tr o =>
       (o = Resolved /\ tr = map (taken chatId markdown) chunks)
       \/ (o = Rejected
           /\ exists pre c post,
               chunks = (pre ++ c :: post)%list
               /\ tr = (map (taken chatId markdown) pre
                          ++ [refused chatId markdown c])%list))
    (send_each SessionRef chatId markdown chunks).
Proof.
  induction chunks as [|c rest IH]; [left; split; reflexivity|].
  cbn [send_each io_and_then io io_bind io_every]. intros [|].
  - eapply io_every_impl; [exact IH|].
    intros tr o [[-> ->]|[-> (pre & x & post & -> & ->)]].
    + left. split; reflexivity.
    + right. split; [reflexivity|]. exists (c :: pre), x, post.
      split; reflexivity.
  - right. split; [reflexivity|]. exists [], c, rest. split; reflexivity.
Qed.

End IORuns.

Arguments io_every_impl {SessionRef A} p P Q.
Arguments io_every_bind {SessionRef A B} p f P.

(** Answer the next call in every way. *)
Ltac io_answer :=
  let r := fresh "r" in
  intro r;
  let T := type of r in
  let T' := eval cbn in T in
  lazymatch T' with
  | Settled => destruct r
  | bool => destruct r
  | option bool => destruct r as [[|]|]
  | option _ => destruct r
  | unit => destruct r
  | _ => idtac
  end.

Ltac io_explore :=
  repeat (cbn [io_every io_bind io io_and_then finish negb send_plain_again];
          lazymatch goal with
          | |- forall _ : IOResp _ _, _ => io_answer
          end).

Section Outbound.

Variable SessionRef : Type.

Lemma send_plain_again_runs (chatId data : string) :
  io_every (fun tr _ => exists again, tr = after_failure (SessionRef:=SessionRef) chatId data again)
           (send_plain_again SessionRef chatId data).
Proof.
  unfold send_plain_again. io_explore.
  - exists Resolved. reflexivity.
  - exists Rejected. reflexivity.
Qed.

Lemma marked_output_runs (fuel : nat) (chatId data : string) :
  includes_text data permission_mark = true ->
  exists prog,
    outputListener SessionRef fuel chatId data = Some prog
    /\ io_every
         (fun tr _ =>
            tr = [io_observed (TelegramSendMessage chatId data true permissionKeyboard)
                              Resolved]
            \/ exists again,
                tr = io_observed (TelegramSendMessage chatId data true
                                                      permissionKeyboard) Rejected
                     :: after_failure chatId data again)
         prog.
Proof.
  intros Hmark. unfold outputListener. rewrite Hmark.
  eexists. split; [reflexivity|].
  io_explore.
  - left. reflexivity.
  - right. exists Resolved. reflexivity.
  - right. exists Rejected. reflexivity.
Qed.

(** An output that carries the mark [*Permission Required*] is handed to
    Telegram whole, with Markdown and the permission keyboard, and is
    never chunked, whatever its length; if Telegram refuses it, the text
    is sent once more, plain and without keyboard. *)
Theorem marked_output_gets_the_keyboard
        (St : Type) (fuel : nat) (chatId data : string)
        (respond : forall c : IOCall SessionRef, St -> IOResp SessionRef c * St)
        (st : St) :
  includes_text data permission_mark = true ->
  exists prog,
    outputListener SessionRef fuel chatId data = Some prog
    /\ (fst (io_run respond prog st)
        = [io_observed (TelegramSendMessage chatId data true permissionKeyboard)
                       Resolved]
        \/ exists again,
            fst (io_run respond prog st)
            = io_observed (TelegramSendMessage chatId data true permissionKeyboard)
                          Rejected
              :: after_failure chatId data again).
Proof.
  intros Hmark.
  destruct (marked_output_runs fuel chatId data Hmark) as (prog & Hprog & Hruns).
  exists prog. split; [exact Hprog|].
  apply (io_run_every SessionRef respond prog _ st Hruns).
Qed.

(** Every prompt built by [formatPermissionRequest], titled or not, is
    recognised by the output listener: it carries the mark, so it is sent
    whole with the permission keyboard. *)
Theorem permission_prompt_gets_the_keyboard
        (St : Type) (fuel : nat) (chatId : string)
        (permission : PermissionInfo)
        (respond : forall c : IOCall SessionRef, St -> IOResp SessionRef c * St)
        (st : St) :
  exists prog answer rest,
    outputListener SessionRef fuel chatId (formatPermissionRequest permission)
    = Some prog
    /\ fst (io_run respond prog st)
       = io_observed (TelegramSendMessage chatId
                        (formatPermissionRequest permission) true
                        permissionKeyboard) answer
         :: rest
    /\ (answer = Resolved -> rest = []).
Proof.
  destruct (marked_output_runs fuel chatId (formatPermissionRequest permission)
              (FormatterMoreFacts.formatPermissionRequest_marked permission))
    as (prog & Hprog & Hruns).
  exists prog.
  pose proof (io_run_every SessionRef respond prog _ st Hruns) as Hrun.
  cbv beta in Hrun. destruct Hrun as [Hrun|[again Hrun]].
  - exists Resolved, []. rewrite Hrun. repeat split; reflexivity || assumption.
  - exists Rejected, (after_failure chatId (formatPermissionRequest permission) again).
    rewrite Hrun. split; [exact Hprog|]. split; [reflexivity|discriminate].
Qed.

(** An output without the mark is sent chunk by chunk, with Markdown, in
    the order of the chunks.  If Telegram takes them all, nothing else is
    sent.  If it refuses one, the chunks after it are not sent, and the
    whole text is sent once more, plain: what was taken before has then
    been sent twice. *)
Theorem unmarked_output_is_sent_in_chunks
        (St : Type) (fuel : nat) (chatId data : string) (chunks : list string)
        (respond : forall c : IOCall SessionRef, St -> IOResp SessionRef c * St)
        (st : St) :
  includes_text data permission_mark = false ->
  chunkMessage fuel data 4096 = Some chunks ->
  exists prog,
    outputListener SessionRef fuel chatId data = Some prog
    /\ (fst (io_run respond prog st) = map (taken chatId true) chunks
        \/ exists pre c post again,
            chunks = (pre ++ c :: post)%list
            /\ fst (io_run respond prog st)
               = (map (taken chatId true) pre
                    ++ refused chatId true c :: after_failure chatId data again)%list).
Proof.
  intros Hmark Hchunks. unfold outputListener. rewrite Hmark, Hchunks.
  eexists. split; [reflexivity|].
  apply (io_run_every SessionRef respond _
           (fun tr _ =>
              tr = map (taken chatId true) chunks
              \/ exists pre c post again,
                  chunks = (pre ++ c :: post)%list
                  /\ tr = (map (taken chatId true) pre
                             ++ refused chatId true c
                             :: after_failure chatId data again)%list)).
  apply io_every_bind.
  eapply io_every_impl; [apply send_each_runs|].
  intros tr o [[-> ->]|[-> (pre & c & post & -> & ->)]].
  - cbn [io_every]. left. rewrite app_nil_r. reflexivity.
  - eapply io_every_impl; [apply send_plain_again_runs|].
    intros tr' _ [again ->]. right. exists pre, c, post, again.
    split; [reflexivity|]. rewrite <- app_assoc. reflexivity.
Qed.

(** [TelegramAdapter.sendMessage] always builds its chunks (the loop
    leaves), none longer than 4097 characters, and together they hold
    every character of the message that is not white space, in order.
    They are handed to Telegram plain and in order; the first refusal ends
    the sending and is not caught. *)
Theorem adapter_sendMessage_sends_the_chunks
        (St : Type) (chatId message : string)
        (respond : forall c : IOCall SessionRef, St -> IOResp SessionRef c * St)
        (st : St) :
  exists chunks,
    Forall (fun c => len c <= 4097) chunks
    /\ nonwhite (flatten chunks) = nonwhite message
    /\ forall fuel,
        (String.length message < fuel)%nat ->
        exists prog,
          adapterSendMessage SessionRef fuel chatId message = Some prog
          /\ ((snd (io_run respond prog st) = Normal
               /\ fst (io_run respond prog st) = map (taken chatId false) chunks)
              \/ (snd (io_run respond prog st) = Uncaught
                  /\ exists pre c post,
                      chunks = (pre ++ c :: post)%list
                      /\ fst (io_run respond prog st)
                         = (map (taken chatId false) pre
                              ++ [refused chatId false c])%list)).
Proof.
  destruct (ChunkMoreFacts.chunks_total message 4096 ltac:(lia)) as [chunks Hrun].
  exists chunks.
  pose proof (Hrun (S (String.length message)) ltac:(lia)) as Hone.
  split; [apply (chunkMessage_bound _ _ 4096 _ ltac:(lia) Hone)|].
  split; [apply (ChunkMoreFacts.chunks_content _ _ _ _ Hone)|].
  intros fuel Hfuel. unfold adapterSendMessage. rewrite (Hrun fuel Hfuel).
  eexists. split; [reflexivity|].
  apply (io_run_every SessionRef respond _
           (fun tr c =>
              (c = Normal /\ tr = map (taken chatId false) chunks)
              \/ (c = Uncaught
                  /\ exists pre x post,
                      chunks = (pre ++ x :: post)%list
                      /\ tr = (map (taken chatId false) pre
                                 ++ [refused chatId false x])%list))).
  apply io_every_bind.
  eapply io_every_impl; [apply send_each_runs|].
  intros tr o [[-> ->]|[-> (pre & c & post & -> & ->)]]; cbn [io_every finish].
  - left. rewrite app_nil_r. split; reflexivity.
  - right. split; [reflexivity|]. exists pre, c, post.
    rewrite app_nil_r. split; reflexivity.
Qed.

End Outbound.

(** In a concrete trace, count the calls of a kind. *)
Ltac counted := cbv [io_count]; simpl; lia.

(** Every position of a concrete trace at which a call of the kind in
    [Hkind] stands: [found] closes the goal there. *)
Ltac each_position Hsplit Hkind found :=
  repeat (apply AdapterFacts.cons_eq_app in Hsplit;
          let pre' := fresh "pre" in
          let Hp := fresh "Hp" in
          let Ho := fresh "Ho" in
          let Hq := fresh "Hq" in
          destruct Hsplit as [(Hp & Ho & Hq) | (pre' & Hp & Hsplit)];
          [ rewrite <- Ho in Hkind; cbn in Hkind;
            first [ discriminate Hkind | subst; found ]
          | subst ]);
  apply AdapterFacts.nil_eq_app in Hsplit; contradiction.

Section Commands.

Variable SessionRef : Type.

Lemma visible_projects_spec (entries : list Dirent) (project : string) :
  In project (visible_projects entries) <->
  exists entry,
    In entry entries /\ name entry = project
    /\ isDirectory entry = true /\ startsWith project "." = false.
Proof.
  unfold visible_projects. rewrite in_map_iff. split.
  - intros (entry & <- & Hin). apply filter_In in Hin as [Hin Hkeep].
    apply andb_true_iff in Hkeep as [Hdir Hdot].
    apply negb_true_iff in Hdot. exists entry. auto.
  - intros (entry & Hin & <- & Hdir & Hdot). exists entry.
    split; [reflexivity|]. apply filter_In. split; [exact Hin|].
    rewrite Hdir, Hdot. reflexivity.
Qed.

Lemma firstn_subset {X : Type} (n : nat) (l : list X) (x : X) :
  In x (firstn n l) -> In x l.
Proof.
  revert l. induction n as [|n IH]; intros [|y l]; simpl; try tauto.
  intros [->|Hin]; [left; reflexivity|right; apply IH; exact Hin].
Qed.

Lemma projectButtons_rows (projects : list string) :
  (List.length (projectButtons projects) <= 10)%nat
  /\ (projects <> [] -> projectButtons projects <> [])
  /\ forall row, In row (projectButtons projects) ->
       exists project,
         In project projects
         /\ row = [("📂 " ++ project, "switch:" ++ project)].
Proof.
  unfold projectButtons. split; [|split].
  - rewrite length_map. apply firstn_le_length.
  - destruct projects; [congruence|discriminate].
  - intros row Hin. apply in_map_iff in Hin as (project & <- & Hin).
    exists project. split; [apply (firstn_subset 10); exact Hin|reflexivity].
Qed.

(** [/projects] offers a keyboard at most once, and only after the
    projects directory was found and read.  The keyboard has between one
    and ten rows, each of one button; every button names a directory of
    the listing whose name does not begin with a dot, and its callback
    data is [switch:] followed by that name.  Whatever fails, a reply to
    the user is attempted. *)
Theorem handleProjects_offers_listed_directories
        (St : Type) (config : Config)
        (respond : forall c : IOCall SessionRef, St -> IOResp SessionRef c * St)
        (st : St) :
  let tr := fst (io_run respond (handleProjects SessionRef config) st) in
  (io_count is_keyboard_reply tr <= 1)%nat
  /\ (1 <= io_count is_reply tr)%nat
  /\ forall pre o post,
       tr = (pre ++ o :: post)%list ->
       is_keyboard_reply (io_command o) = true ->
       exists entries text,
         pre = [ io_observed (Base (FsExistsSync (projectsDir config))) true;
                 io_observed (FsReaddirSync (projectsDir config)) (Some entries) ]
         /\ io_command o
            = CtxReplyKeyboard text (projectButtons (visible_projects entries))
         /\ (1 <= List.length (projectButtons (visible_projects entries)) <= 10)%nat
         /\ forall row,
              In row (projectButtons (visible_projects entries)) ->
              exists entry,
                In entry entries
                /\ isDirectory entry = true
                /\ startsWith (name entry) "." = false
                /\ row = [("📂 " ++ name entry, "switch:" ++ name entry)].
Proof.
  cbv zeta.
  apply (io_run_every SessionRef respond (handleProjects SessionRef config)
           (fun tr _ =>
              (io_count is_keyboard_reply tr <= 1)%nat
              /\ (1 <= io_count is_reply tr)%nat
              /\ forall pre o post,
                   tr = (pre ++ o :: post)%list ->
                   is_keyboard_reply (io_command o) = true ->
                   exists entries text,
                     pre = [ io_observed (Base (FsExistsSync (projectsDir config))) true;
                             io_observed (FsReaddirSync (projectsDir config))
                                         (Some entries) ]
                     /\ io_command o
                        = CtxReplyKeyboard text
                            (projectButtons (visible_projects entries))
                     /\ (1 <= List.length (projectButtons (visible_projects entries))
                         <= 10)%nat
                     /\ forall row,
                          In row (projectButtons (visible_projects entries)) ->
                          exists entry,
                            In entry entries
                            /\ isDirectory entry = true
                            /\ startsWith (name entry) "." = false
                            /\ row = [("📂 " ++ name entry,
                                       "switch:" ++ name entry)])).
  unfold handleProjects. io_explore.
  all: try match goal with
           | |- context [(List.length (visible_projects ?l) =? 0)%nat] =>
               destruct (List.length (visible_projects l) =? 0)%nat eqn:Hnone;
               io_explore
           end.
  all: (split; [counted|]); (split; [counted|]).
  all: intros pre o post Hsplit Hkind.
  all: each_position Hsplit Hkind
         ltac:(idtac; match goal with
               | Hnone : (List.length (visible_projects ?l) =? 0)%nat = false |- _ =>
                   exists l; eexists;
                   split; [reflexivity|]; split; [reflexivity|];
                   destruct (projectButtons_rows (visible_projects l))
                     as (Hten & Hsome & Hrows);
                   split;
                   [ split; [|exact Hten];
                     apply Nat.eqb_neq in Hnone;
                     assert (projectButtons (visible_projects l) <> [])
                       by (apply Hsome; intros Hnil; rewrite Hnil in Hnone;
                           apply Hnone; reflexivity);
                     destruct (projectButtons (visible_projects l));
                     [congruence|simpl; lia]
                   | intros row Hrow;
                     destruct (Hrows row Hrow) as (project & Hin & ->);
                     apply visible_projects_spec in Hin
                       as (entry & Hin & <- & Hdir & Hdot);
                     exists entry; auto ]
               end).
Qed.

(** [/stop] interrupts at most once, and only the live Session of the
    chat, right after it answered that it is running.  The user is told
    [Operation interrupted] only after the interrupt went through, is
    told that nothing runs when no interrupt was attempted, and a reply
    is attempted in every run. *)
Theorem handleStop_interrupts_only_a_running_session
        (St : Type) (ctx : Context)
        (respond : forall c : IOCall SessionRef, St -> IOResp SessionRef c * St)
        (st : St) :
  let tr := fst (io_run respond (handleStop SessionRef ctx) st) in
  (io_count is_interrupt tr <= 1)%nat
  /\ (1 <= io_count is_reply tr)%nat
  /\ (forall pre o post,
        tr = (pre ++ o :: post)%list ->
        is_interrupt (io_command o) = true ->
        exists s,
          io_command o = SessionInterrupt s
          /\ pre = [ io_observed (Base (ManagerGet (String_of (chat_id ctx))))
                                 (Some s);
                     io_observed (Base (SessionIsRunning s)) true ])
  /\ (forall pre o post,
        tr = (pre ++ o :: post)%list ->
        io_command o = Base (CtxReply "⏹ Operation interrupted") ->
        exists s, In (io_observed (SessionInterrupt s) Resolved) pre)
  /\ (io_count is_interrupt tr = 0%nat ->
      exists o, In o tr /\ io_command o = Base (CtxReply nothing_to_stop)).
Proof.
  cbv zeta.
  apply (io_run_every SessionRef respond (handleStop SessionRef ctx)
           (fun tr _ =>
              (io_count is_interrupt tr <= 1)%nat
              /\ (1 <= io_count is_reply tr)%nat
              /\ (forall pre o post,
                    tr = (pre ++ o :: post)%list ->
                    is_interrupt (io_command o) = true ->
                    exists s,
                      io_command o = SessionInterrupt s
                      /\ pre = [ io_observed
                                   (Base (ManagerGet (String_of (chat_id ctx))))
                                   (Some s);
                                 io_observed (Base (SessionIsRunning s)) true ])
              /\ (forall pre o post,
                    tr = (pre ++ o :: post)%list ->
                    io_command o = Base (CtxReply "⏹ Operation interrupted") ->
                    exists s, In (io_observed (SessionInterrupt s) Resolved) pre)
              /\ (io_count is_interrupt tr = 0%nat ->
                  exists o, In o tr
                            /\ io_command o = Base (CtxReply nothing_to_stop)))).
  unfold handleStop. io_explore.
  all: (split; [counted|]); (split; [counted|]).
  all: split;
    [ intros pre o post Hsplit Hkind;
      each_position Hsplit Hkind
        ltac:(eexists; split; reflexivity)
    | split;
      [ intros pre o post Hsplit Hkind;
        each_position Hsplit Hkind
          ltac:(eexists; simpl; solve [repeat first [left; reflexivity | right]])
      | first [ intros Hzero; cbv [io_count] in Hzero; simpl in Hzero;
                discriminate Hzero
              | intros _;
                solve [ eexists; split;
                        [simpl; AdapterFacts.at_some_position|]; reflexivity ] ] ] ].
Qed.

End Commands.

Lemma marked_output_gets_the_keyboard_witness :
  FormatterMore.includes_text sample_prompt permission_mark = true
  /\ exists prog,
      outputListener nat 0 "42" sample_prompt = Some prog
      /\ (fst (io_run sample_io prog tt)
          = [io_observed (TelegramSendMessage "42" sample_prompt true
                                              permissionKeyboard) Resolved]
          \/ exists again,
              fst (io_run sample_io prog tt)
              = io_observed (TelegramSendMessage "42" sample_prompt true
                                                 permissionKeyboard) Rejected
                :: after_failure "42" sample_prompt again).
Proof.
  split; [reflexivity|].
  apply (marked_output_gets_the_keyboard nat unit 0 "42" sample_prompt
                                         sample_io tt).
  reflexivity.
Defined.

Lemma unmarked_output_is_sent_in_chunks_witness :
  FormatterMore.includes_text "hello" permission_mark = false
  /\ chunkMessage 1 "hello" 4096 = Some ["hello"]
  /\ exists prog,
      outputListener nat 1 "42" "hello" = Some prog
      /\ (fst (io_run sample_io prog tt) = map (taken "42" true) ["hello"]
          \/ exists pre c post again,
              ["hello"] = (pre ++ c :: post)%list
              /\ fst (io_run sample_io prog tt)
                 = (map (taken "42" true) pre
                      ++ refused "42" true c
                      :: after_failure "42" "hello" again)%list).
Proof.
  split; [reflexivity|]. split; [reflexivity|].
  apply (unmarked_output_is_sent_in_chunks nat unit 1 "42" "hello" ["hello"]
                                           sample_io tt); reflexivity.
Defined.

End AdapterIOFacts.

(* ===================================================================== *)
(** ** The adapter: [/switch] and the words of its message *)
(* ===================================================================== *)

Module SwitchFacts.
Import JsString Adapter AdapterMore FormatterMore.
Import JsStringFacts.

Lemma split_white_not_empty (text : string) :
  forall in_gap word, split_white in_gap word text <> [].
Proof.
  induction text as [|c rest IH]; intros in_gap word; simpl; [discriminate|].
  destruct (is_white c); [destruct in_gap|]; try apply IH; discriminate.
Qed.

(** Only a text without white space is a single piece. *)
Lemma one_piece (text : string) :
  forall word,
    tl (split_white false word text) = [] <-> has_white text = false.
Proof.
  induction text as [|c rest IH]; intros word; simpl; [tauto|].
  destruct (is_white c); simpl; [|apply IH].
  split; [|discriminate].
  intros Hnil. exfalso. exact (split_white_not_empty rest true "" Hnil).
Qed.

Lemma has_white_app (a b : string) :
  has_white (a ++ b) = has_white a || has_white b.
Proof.
  induction a as [|c a IH]; simpl; [reflexivity|].
  rewrite IH. apply orb_assoc.
Qed.

Lemma join_cons (sep x : string) (l : list string) :
  l <> [] -> join sep (x :: l) = x ++ sep ++ join sep l.
Proof. destruct l; [congruence|reflexivity]. Qed.

Lemma single_spaced_word (w s : string) :
  has_white w = false -> single_spaced (w ++ s) = single_spaced s.
Proof.
  induction w as [|c w IH]; simpl; [reflexivity|].
  intros Hw. apply orb_false_iff in Hw as [Hc Hw]. rewrite Hc. apply IH, Hw.
Qed.

Lemma single_spaced_white_free (w : string) :
  has_white w = false -> single_spaced w = true.
Proof.
  intros Hw. rewrite <- (append_empty w). rewrite single_spaced_word; auto.
Qed.

Lemma tidy_white_free (w : string) : has_white w = false -> tidy w.
Proof.
  intros Hw. split; [apply single_spaced_white_free, Hw|].
  destruct w as [|c w]; [exact I|].
  simpl in Hw. apply orb_false_iff in Hw. tauto.
Qed.

Lemma tidy_blank_between (w s : string) :
  has_white w = false -> w <> "" -> tidy s -> tidy (w ++ " " ++ s).
Proof.
  intros Hw Hne [Hs Hhead]. split.
  - rewrite single_spaced_word by exact Hw.
    destruct s as [|d s]; [reflexivity|].
    change (single_spaced (" " ++ String d s))
      with (Ascii.eqb " " " " && negb (is_white d) && single_spaced (String d s)).
    rewrite Hhead, Hs. reflexivity.
  - destruct w as [|c w]; [congruence|]. simpl in Hw |- *.
    apply orb_false_iff in Hw. tauto.
Qed.

Lemma pieces_tidy (text : string) :
  forall in_gap word,
    has_white word = false ->
    (in_gap = true /\ word = "") \/ word <> "" ->
    tidy (join " " (split_white in_gap word text)).
Proof.
  induction text as [|c rest IH]; intros in_gap word Hw Hcond; simpl.
  - apply tidy_white_free, Hw.
  - destruct (is_white c) eqn:Hc; [destruct in_gap|].
    + apply IH; [exact Hw|]. destruct Hcond as [[_ ->]|Hne]; auto.
    + destruct Hcond as [[Hgap _]|Hne]; [discriminate|].
      rewrite join_cons by apply split_white_not_empty.
      apply tidy_blank_between; auto.
    + apply IH.
      * rewrite has_white_app. simpl. rewrite Hw, Hc. reflexivity.
      * right. destruct word; discriminate.
Qed.

Lemma arguments_tidy (text : string) :
  forall in_gap word,
    has_white word = false ->
    tidy (join " " (tl (split_white in_gap word text))).
Proof.
  induction text as [|c rest IH]; intros in_gap word Hw; simpl.
  - split; [reflexivity|exact I].
  - destruct (is_white c) eqn:Hc; [destruct in_gap|].
    + apply IH, Hw.
    + simpl. apply pieces_tidy; auto.
    + apply IH. rewrite has_white_app. simpl. rewrite Hw, Hc. reflexivity.
Qed.

Lemma nonwhite_join_cons (x : string) (l : list string) :
  nonwhite (join " " (x :: l)) = nonwhite x ++ nonwhite (join " " l).
Proof.
  destruct l as [|y l].
  - simpl. symmetry. apply append_empty.
  - rewrite join_cons by discriminate.
    rewrite ChunkMoreFacts.nonwhite_app. reflexivity.
Qed.

Lemma pieces_keep_nonwhite (text : string) :
  forall in_gap word,
    nonwhite (join " " (split_white in_gap word text))
    = nonwhite word ++ nonwhite text.
Proof.
  induction text as [|c rest IH]; intros in_gap word; simpl.
  - symmetry. apply append_empty.
  - destruct (is_white c) eqn:Hc; [destruct in_gap|].
    + apply IH.
    + rewrite nonwhite_join_cons, IH. reflexivity.
    + rewrite IH, ChunkMoreFacts.nonwhite_app. simpl. rewrite Hc.
      rewrite append_assoc. reflexivity.
Qed.

Lemma split_word (x : string) :
  forall word rest,
    has_white x = false ->
    split_white false word (x ++ rest) = split_white false (word ++ x) rest.
Proof.
  induction x as [|c x IH]; intros word rest Hx; simpl.
  - rewrite append_empty. reflexivity.
  - simpl in Hx. apply orb_false_iff in Hx as [Hc Hx]. rewrite Hc.
    rewrite IH by exact Hx. rewrite append_assoc. reflexivity.
Qed.

Lemma is_word_spec (w : string) :
  is_word w = true -> has_white w = false /\ w <> "".
Proof.
  unfold is_word. intros H. apply andb_true_iff in H as [Hne Hw].
  apply negb_true_iff in Hne, Hw. split; [exact Hw|].
  intros ->. discriminate.
Qed.

(** Words joined by single blanks are split into these words again. *)
Lemma split_join_words (l : list string) :
  forall word,
    l <> [] ->
    forallb is_word l = true ->
    split_white false word (join " " l) = (word ++ hd "" l) :: tl l.
Proof.
  induction l as [|x l IH]; intros word Hne Hall; [congruence|].
  simpl in Hall. apply andb_true_iff in Hall as [Hx Hall].
  apply is_word_spec in Hx as [Hx _].
  destruct l as [|y l].
  - simpl. rewrite <- (append_empty x) at 1.
    rewrite split_word by exact Hx. reflexivity.
  - rewrite join_cons by discriminate.
    rewrite split_word by exact Hx.
    change (split_white false (word ++ x) (" " ++ join " " (y :: l)))
      with ((word ++ x) :: split_white true "" (join " " (y :: l))).
    simpl hd. simpl tl. f_equal.
    specialize (IH "" ltac:(discriminate) Hall). simpl hd in IH. simpl tl in IH.
    change ("" ++ y) with y in IH. etransitivity; [|exact IH].
    simpl in Hall. apply andb_true_iff in Hall as [Hy _].
    apply is_word_spec in Hy as [Hy Hne'].
    destruct y as [|d y]; [congruence|].
    simpl in Hy. apply orb_false_iff in Hy as [Hd _].
    destruct l; simpl; rewrite Hd; reflexivity.
Qed.

Section Switch.

Variable SessionRef : Type.
Variable path_join : string -> string -> string.
Variable config : Config.

(** [/switch] without a word after the command only shows the usage;
    otherwise the project name is made of the pieces after the first,
    joined by single blanks: in the name white space is a blank, never two
    in a row, never at the beginning, so tabs, line ends and runs of
    blanks of the message are not kept, while every other character of
    the message is in the first piece or in the name, in order. *)
Theorem handleSwitch_collapses_white_space (ctx : Context) :
  let text := or_empty (message_text ctx) in
  let projectName := join " " (tl (splitWhite text)) in
  (has_white text = false ->
   handleSwitch SessionRef path_join config ctx
   = bind (call (CtxReply switch_usage)) (fun o => Ret (finish o)))
  /\ (has_white text = true ->
      handleSwitch SessionRef path_join config ctx
      = switchToProject SessionRef path_join config
          (String_of (chat_id ctx)) (String_of (from_id ctx)) projectName)
  /\ single_spaced projectName = true
  /\ starts_nonwhite projectName = negb (String.eqb projectName "")
  /\ nonwhite (hd "" (splitWhite text)) ++ nonwhite projectName = nonwhite text.
Proof.
  cbv zeta. unfold handleSwitch.
  set (text := or_empty (message_text ctx)).
  pose proof (one_piece text "") as Hone. fold (splitWhite text) in Hone.
  pose proof (arguments_tidy text false "" eq_refl) as [Hsingle Hhead].
  fold (splitWhite text) in Hsingle, Hhead.
  pose proof (pieces_keep_nonwhite text false "") as Hkeep.
  fold (splitWhite text) in Hkeep.
  split; [|split; [|split; [|split]]].
  - intros Hw. apply Hone in Hw. rewrite Hw. reflexivity.
  - intros Hw. destruct (tl (splitWhite text)) as [|a l] eqn:Hargs.
    + destruct Hone as [Hone _]. rewrite Hone in Hw by reflexivity. discriminate.
    + reflexivity.
  - exact Hsingle.
  - destruct (join " " (tl (splitWhite text))) as [|d s]; [reflexivity|].
    simpl. simpl in Hhead. rewrite Hhead. reflexivity.
  - destruct (splitWhite text) as [|x l] eqn:Hsplit.
    + exfalso. exact (split_white_not_empty text false "" Hsplit).
    + rewrite nonwhite_join_cons in Hkeep. exact Hkeep.
Qed.

(** A message made of the command and of words separated by single
    blanks switches to the project named by these words, blanks
    included: the name comes through as it was written. *)
Theorem handleSwitch_passes_the_words_on
        (ctx : Context) (cmd : string) (words : list string) :
  is_word cmd = true ->
  forallb is_word words = true ->
  words <> [] ->
  message_text ctx = Some (join " " (cmd :: words)) ->
  handleSwitch SessionRef path_join config ctx
  = switchToProject SessionRef path_join config
      (String_of (chat_id ctx)) (String_of (from_id ctx)) (join " " words).
Proof.
  intros Hcmd Hwords Hne Htext. unfold handleSwitch. rewrite Htext.
  cbn [or_empty]. unfold splitWhite.
  rewrite split_join_words; [|discriminate|simpl; rewrite Hcmd; exact Hwords].
  simpl tl. destruct words as [|w ws]; [congruence|]. reflexivity.
Qed.

End Switch.

Lemma handleSwitch_passes_the_words_on_witness :
  is_word "/switch" = true
  /\ forallb is_word ["my"; "app"] = true
  /\ ["my"; "app"] <> []
  /\ message_text sample_switch = Some (join " " ["/switch"; "my"; "app"])
  /\ handleSwitch nat sample_join sample_config sample_switch
     = switchToProject nat sample_join sample_config
         (String_of (chat_id sample_switch)) (String_of (from_id sample_switch))
         (join " " ["my"; "app"]).
Proof.
  split; [reflexivity|]. split; [reflexivity|]. split; [discriminate|].
  split; [reflexivity|].
  apply (handleSwitch_passes_the_words_on nat sample_join sample_config
           sample_switch "/switch" ["my"; "app"]);
    [reflexivity|reflexivity|discriminate|reflexivity].
Defined.

End SwitchFacts.
